(** * GimpGradientMaker: [app.py] embedded in Rocq

    The program turns a CSS [linear-gradient(...)] declaration into the text
    of a GIMP gradient ([.ggr]) file.  This development embeds the functions
    of [app.py] as Rocq functions and proves the properties its
    specification states about them.

    Conventions of the embedding:
    - a Python [str] is a [string]; its characters are code points below 256
      (the Latin-1 range), which covers every ASCII input; where a token
      of any characters matters, a [str] is the list of its code points
      ([Uni]);
    - a Python [int] is a [Z];
    - a Python [float] is a primitive binary64 [float]; arithmetic on it is
      the IEEE 754 arithmetic of [PrimFloat] and [SpecFloat], and its text
      is the shortest decimal that reads back as the same float;
    - a raised exception is the [Raise] case of [result];
    - the file system and the standard output are a [world] threaded through
      [main]; whether opening the file, writing it and printing succeed is
      for the [environ] to say, call by call.

    The file has the built-ins of Python that the program calls ([Py]), the
    pattern of [re.match] ([Re]), the functions of [app.py] under their own
    names, the notions the specification speaks of, and then the
    properties: [hex_to_rgb], the division of the positions, the segments,
    the serialised text, the pattern, the parser and [main]. *)

From Stdlib Require Import ZArith Lia Bool Ascii String List Floats.
From Stdlib Require Import DecimalString DecimalPos DecimalZ.
From stdpp Require Import base option list strings gmap.


(** ** Exceptions and results *)

Inductive exn : Type :=
| ValueError (msg : string)      (* [raise ValueError(msg)] in app.py *)
| InvalidLiteral (lit : string)  (* the [ValueError] of [int(lit, 16)] *)
| InvalidLiteralOf (lit : list N) (* the same, the literal by code points *)
| ZeroDivisionError
| OverflowError
| IndexError
| OSError (path : string).

Inductive result (A : Type) : Type :=
| Ok (a : A)
| Raise (e : exn).
Arguments Ok {A} a.
Arguments Raise {A} e.

#[global] Instance result_ret : MRet result := fun _ a => Ok a.
#[global] Instance result_bind : MBind result := fun _ _ f m =>
  match m with
  | Ok a => f a
  | Raise e => Raise e
  end.

Definition is_ok {A} (r : result A) : bool :=
  match r with Ok _ => true | Raise _ => false end.

(** ** The Python built-ins the program calls *)

Module Py.

(** *** Characters *)

Definition code (c : ascii) : N := N_of_ascii c.

(** [str.isspace] on one character; it is the class [str.strip()] removes
    and the class [\s] of [re]. *)
Definition is_space (c : ascii) : bool :=
  let n := code c in
  ((9 <=? n) && (n <=? 13) || (28 <=? n) && (n <=? 32)
   || (n =? 133) || (n =? 160))%N.

(** The narrower class [int()] skips around a literal. *)
Definition is_int_space (c : ascii) : bool :=
  let n := code c in
  ((9 <=? n) && (n <=? 13) || (n =? 32) || (n =? 133) || (n =? 160))%N.

(** The value of a base-16 digit. *)
Definition hex_val (c : ascii) : option Z :=
  let n := code c in
  if ((48 <=? n) && (n <=? 57))%N then Some (Z.of_N n - 48)%Z
  else if ((97 <=? n) && (n <=? 102))%N then Some (Z.of_N n - 87)%Z
  else if ((65 <=? n) && (n <=? 70))%N then Some (Z.of_N n - 55)%Z
  else None.

Definition is_hex_digit (c : ascii) : bool :=
  match hex_val c with Some _ => true | None => false end.

(** *** Strings *)

Fixpoint all (p : ascii -> bool) (s : string) : bool :=
  match s with
  | EmptyString => true
  | String c s' => p c && all p s'
  end.

Fixpoint drop (n : nat) (s : string) : string :=
  match n, s with
  | O, _ => s
  | S n', String _ s' => drop n' s'
  | S _, EmptyString => EmptyString
  end.

Fixpoint take (n : nat) (s : string) : string :=
  match n, s with
  | O, _ => EmptyString
  | S n', String c s' => String c (take n' s')
  | S _, EmptyString => EmptyString
  end.

(** [s[i:j]] for [0 <= i <= j]: out-of-range bounds are clamped. *)
Definition slice (s : string) (i j : nat) : string := take (j - i) (drop i s).

(** [s.lstrip(chars)] for a one-character [chars], and the general form on
    a class of characters. *)
Fixpoint lstrip_class (p : ascii -> bool) (s : string) : string :=
  match s with
  | EmptyString => EmptyString
  | String c s' => if p c then lstrip_class p s' else s
  end.

Definition lstrip_char (ch : ascii) (s : string) : string :=
  lstrip_class (Ascii.eqb ch) s.

Fixpoint rstrip_class (p : ascii -> bool) (s : string) : string :=
  match s with
  | EmptyString => EmptyString
  | String c s' =>
      match rstrip_class p s' with
      | EmptyString => if p c then EmptyString else String c EmptyString
      | r => String c r
      end
  end.

(** [s.strip()] *)
Definition strip (s : string) : string :=
  rstrip_class is_space (lstrip_class is_space s).

(** [s.split(sep)] for a one-character separator: never the empty list. *)
Fixpoint split (sep : ascii) (s : string) : list string :=
  match s with
  | EmptyString => [EmptyString]
  | String c s' =>
      if Ascii.eqb c sep then EmptyString :: split sep s'
      else match split sep s' with
           | piece :: pieces => String c piece :: pieces
           | [] => [String c EmptyString]
           end
  end.

(** [sep.join(pieces)] *)
Fixpoint join (sep : string) (pieces : list string) : string :=
  match pieces with
  | [] => EmptyString
  | [piece] => piece
  | piece :: rest => piece +:+ sep +:+ join sep rest
  end.

Fixpoint startswith (p s : string) : bool :=
  match p, s with
  | EmptyString, _ => true
  | String a p', String b s' => Ascii.eqb a b && startswith p' s'
  | String _ _, EmptyString => false
  end.

(** [needle in hay] *)
Fixpoint contains (needle hay : string) : bool :=
  startswith needle hay
  || match hay with
     | EmptyString => false
     | String _ hay' => contains needle hay'
     end.

(** [lst[i]] with Python's negative indices. *)
Definition getitem {A} (l : list A) (i : Z) : result A :=
  let n := Z.of_nat (length l) in
  let j := if (i <? 0)%Z then (n + i)%Z else i in
  if (j <? 0)%Z then Raise IndexError
  else match l !! Z.to_nat j with
       | Some x => Ok x
       | None => Raise IndexError
       end.

(** [range(n)] *)
Definition range (n : Z) : list Z := map Z.of_nat (seq 0 (Z.to_nat n)).

(** *** [int(lit, 16)]

    Optional surrounding whitespace, an optional sign, an optional [0x]
    prefix, then hexadecimal digits that single underscores may
    separate.  This is [int] on a literal of Latin-1 characters, where the
    only digits are those of ASCII; [Uni.int16] below is [int] on a literal
    of any characters, and the two agree on the Latin-1 literals of at most
    two characters, the ones [hex_to_rgb] makes ([int16_latin1]). *)

Definition hex_head (s : string) : option (Z * string) :=
  match s with
  | String c s' =>
      match hex_val c with
      | Some d => Some (d, s')
      | None => None
      end
  | EmptyString => None
  end.

(** The rest of a literal, after a digit was read. *)
Fixpoint int_digits (acc : Z) (s : string) : option Z :=
  match s with
  | EmptyString => Some acc
  | String c s' =>
      match hex_val c with
      | Some d => int_digits (16 * acc + d)%Z s'
      | None =>
          if Ascii.eqb c "_" then
            match s' with
            | String c' s'' =>
                match hex_val c' with
                | Some d => int_digits (16 * acc + d)%Z s''
                | None => None
                end
            | EmptyString => None
            end
          else if all is_int_space s then Some acc
          else None
      end
  end.

Definition int_body (s : string) : option Z :=
  match hex_head s with
  | Some (d, s') => int_digits d s'
  | None => None
  end.

Definition skip_prefix (s : string) : string :=
  match s with
  | String z (String x s') =>
      if Ascii.eqb z "0" && (Ascii.eqb x "x" || Ascii.eqb x "X") then
        match s' with
        | String u s'' => if Ascii.eqb u "_" then s'' else s'
        | EmptyString => s'
        end
      else s
  | _ => s
  end.

Definition int_signed (s : string) : option Z :=
  match s with
  | String c s' =>
      if Ascii.eqb c "+" then int_body (skip_prefix s')
      else if Ascii.eqb c "-" then Z.opp <$> int_body (skip_prefix s')
      else int_body (skip_prefix s)
  | EmptyString => None
  end.

Definition int16 (lit : string) : result Z :=
  match int_signed (lstrip_class is_int_space lit) with
  | Some z => Ok z
  | None => Raise (InvalidLiteral lit)
  end.

(** *** Floats *)

(** [float(z)], correctly rounded. *)
Definition float_of_int (z : Z) : float :=
  SF2Prim (binary_normalize prec emax z 0 false).

(** [n / d] on an [int] and a non-zero [float]. *)
Definition int_div_float (n : Z) (d : float) : float :=
  (float_of_int n / d)%float.

(** An integer as an unrounded binary number [m * 2 ^ 0]. *)
Definition Z2SF (z : Z) : spec_float :=
  match z with
  | Z0 => S754_zero false
  | Zpos p => S754_finite false p 0
  | Zneg p => S754_finite true p 0
  end.

(** The quotient of [a] by [b] is too large for a [float] when it reaches
    the midpoint between the largest [float] and [2 ^ 1024]. *)
Definition too_large (a b : Z) : bool :=
  ((2 ^ 1024 - 2 ^ 970) * Z.abs b <=? Z.abs a)%Z.

(** [a / b] on two [int]s: the correctly rounded quotient of the two
    integers (not the quotient of their roundings). *)
Definition int_truediv (a b : Z) : result float :=
  if (b =? 0)%Z then Raise ZeroDivisionError
  else if too_large a b then Raise OverflowError
  else Ok (SF2Prim (SFdiv prec emax (Z2SF a) (Z2SF b))).

(** *** [repr] of an [int] and of a [float] *)

Definition int_repr (z : Z) : string := NilZero.string_of_int (Z.to_int z).

(** [b ^ n], and 1 for a negative [n]. *)
Definition pw (b n : Z) : Z := (b ^ Z.max n 0)%Z.

(** Whether [10 ^ p <= m * 2 ^ e]. *)
Definition pow10_le (p m e : Z) : bool :=
  (pw 10 p * pw 2 (- e) <=? m * pw 2 e * pw 10 (- p))%Z.

(** The decimal exponent of [m * 2 ^ e]: the largest [p] with
    [10 ^ p <= m * 2 ^ e], from an estimate that is off by at most one. *)
Definition log10_floor (m e : Z) : Z :=
  let p0 := ((Z.log2 m + e) * 30103 / 100000)%Z in
  if pow10_le (p0 + 1) m e then (p0 + 1)%Z
  else if pow10_le p0 m e then p0
  else (p0 - 1)%Z.

(** The multiples of [10 ^ x] next to [v = m * 2 ^ e], and the one of them
    that reads back as [v], if any: the nearer one when both do, the even
    one on a tie.  A decimal reads back as [v] when it lies between the
    midpoints to the two neighbouring floats, the midpoints included when
    [m] is even.  With [u = 2 ^ (e - 2)], [v] is [4 * m * u] and the
    midpoints are [(4 * m - 2) * u], or [(4 * m - 1) * u] below a power of
    two, and [(4 * m + 2) * u]; both sides of each comparison are scaled to
    integers. *)
Definition shortest_at (m e x : Z) : option Z :=
  let boundary := ((m =? 2 ^ 52) && (emin <? e))%Z in
  let below := (4 * m - (if boundary then 1 else 2))%Z in
  let above := (4 * m + 2)%Z in
  let A := (pw 10 x * pw 2 (2 - e))%Z in
  let B := (pw 2 (e - 2) * pw 10 (- x))%Z in
  let low := (4 * m * B / A)%Z in
  let r := ((4 * m * B) mod A)%Z in
  let low_ok :=
    ((below * B <? low * A) || Z.even m && (below * B =? low * A))%Z in
  let high_ok :=
    (((low + 1) * A <? above * B)
     || Z.even m && ((low + 1) * A =? above * B))%Z in
  if low_ok then
    if high_ok && ((A <? 2 * r) || (A =? 2 * r) && Z.odd low)%Z
    then Some (low + 1)%Z else Some low
  else if high_ok then Some (low + 1)%Z
  else None.

(** The shortest decimal [d * 10 ^ x] that reads back as [m * 2 ^ e]: one
    more digit at each step.  Seventeen digits identify every binary64
    number, so the search ends before its fuel does. *)
Fixpoint shortest_from (fuel : nat) (m e x : Z) : Z * Z :=
  match shortest_at m e x, fuel with
  | Some d, _ => (d, x)
  | None, S fuel' => shortest_from fuel' m e (x - 1)
  | None, O => (m * pw 2 e * pw 10 (- x) / (pw 10 x * pw 2 (- e)), x)%Z
  end.

Definition digits_of (d : Z) : string :=
  NilEmpty.string_of_uint (Pos.to_uint (Z.to_pos d)).

Fixpoint zeros (n : nat) : string :=
  match n with
  | O => EmptyString
  | S n' => String "0" (zeros n')
  end.

Definition pad2 (s : string) : string :=
  match s with
  | String c EmptyString => String "0" s
  | _ => s
  end.

(** The layout [repr] gives to the digits [ds] of [0.ds * 10 ^ decpt]. *)
Definition layout (ds : string) (decpt : Z) : string :=
  let n := Z.of_nat (String.length ds) in
  if ((decpt <=? -4) || (16 <? decpt))%Z then
    let mantissa :=
      match ds with
      | String c (String c' rest) => String c (String "." (String c' rest))
      | _ => ds
      end in
    mantissa +:+ "e" +:+ (if (decpt - 1 <? 0)%Z then "-" else "+")
      +:+ pad2 (int_repr (Z.abs (decpt - 1)))
  else if (decpt <=? 0)%Z then
    "0." +:+ zeros (Z.to_nat (- decpt)) +:+ ds
  else if (n <=? decpt)%Z then
    ds +:+ zeros (Z.to_nat (decpt - n)) +:+ ".0"
  else take (Z.to_nat decpt) ds +:+ "." +:+ drop (Z.to_nat decpt) ds.

Definition repr_finite (m e : Z) : string :=
  let '(d, x) := shortest_from 17 m e (log10_floor m e) in
  let ds := digits_of d in
  layout (rstrip_class (Ascii.eqb "0") ds)
         (x + Z.of_nat (String.length ds)).

Definition with_sign (neg : bool) (s : string) : string :=
  if neg then String "-" s else s.

(** [repr(f)], which [str(f)] returns too. *)
Definition float_repr (f : float) : string :=
  match Prim2SF f with
  | S754_zero s => with_sign s "0.0"
  | S754_infinity s => with_sign s "inf"
  | S754_nan => "nan"
  | S754_finite s m e => with_sign s (repr_finite (Zpos m) e)
  end.

End Py.

(** ** The pattern of [re.match]

    The regular expression of [parse_css_gradient] is embedded as
    backtracking matchers in continuation-passing style: a matcher consumes a
    prefix of the subject and hands the rest to its continuation; when the
    continuation fails, a greedy repetition gives back one character and
    tries again, as the engine of [re] does.  [re.match] anchors the pattern
    at the start of the subject and not at its end. *)

Module Re.

Section Matchers.
Context {A : Type}.

(** A literal text. *)
Definition lit (text : string) (k : string -> option A) (s : string)
  : option A :=
  if Py.startswith text s then k (Py.drop (String.length text) s)
  else None.

(** [cls*], greedy: the continuation gets the text matched. *)
Fixpoint star (cls : ascii -> bool) (k : string -> string -> option A)
    (s : string) : option A :=
  match s with
  | String c s' =>
      if cls c then
        match star cls (fun m => k (String c m)) s' with
        | Some a => Some a
        | None => k EmptyString s
        end
      else k EmptyString s
  | EmptyString => k EmptyString s
  end.

(** [cls+], greedy. *)
Definition plus (cls : ascii -> bool) (k : string -> string -> option A)
    (s : string) : option A :=
  match s with
  | String c s' =>
      if cls c then star cls (fun m => k (String c m)) s' else None
  | EmptyString => None
  end.
End Matchers.

(** [[^,]] *)
Definition not_comma (c : ascii) : bool := negb (Ascii.eqb c ",").

(** [.] without [re.DOTALL]: anything but a line feed. *)
Definition dot (c : ascii) : bool := negb (Ascii.eqb c "010").

(** [re.match(r'linear-gradient\(([^,]+),\s*(.+)\)', s)]: the two groups
    of the match, or [None]. *)
Definition linear_gradient (s : string) : option (string * string) :=
  lit "linear-gradient("
    (plus not_comma (fun direction =>
      lit ","
        (star Py.is_space (fun _ =>
          plus dot (fun colors_str =>
            lit ")" (fun _ => Some (direction, colors_str)))))))
    s.

End Re.

(** ** app.py *)

Definition FormatError : exn := ValueError "Invalid CSS gradient format".
Definition UnsupportedDirectionError : exn :=
  ValueError "Unsupported gradient direction".

Definition parse_css_gradient (css_gradient : string) : result (list string) :=
  match Re.linear_gradient css_gradient with
  | None => Raise FormatError
  | Some (direction, colors_str) =>
      if negb (Py.contains "to right" direction)
      then Raise UnsupportedDirectionError
      else
        let colors := Py.split "," colors_str in
        Ok (map Py.strip colors)
  end.

(** [int(hex_color[i:i+2], 16) / 255.0] *)
Definition channel (hex_color : string) (i : nat) : result float :=
  n ← Py.int16 (Py.slice hex_color i (i + 2));
  mret (Py.int_div_float n 255).

Definition hex_to_rgb (hex_color : string) : result (float * float * float) :=
  let hex_color := Py.lstrip_char "#" hex_color in
  r ← channel hex_color 0;
  g ← channel hex_color 2;
  b ← channel hex_color 4;
  mret (r, g, b).

(** The entries of a segment are floats and ints. *)
Inductive value : Type :=
| VFloat (f : float)
| VInt (z : Z).

Definition str (v : value) : string :=
  match v with
  | VFloat f => Py.float_repr f
  | VInt z => Py.int_repr z
  end.

(** The list [segment] of the loop body. *)
Definition segment_of (left_endpoint midpoint right_endpoint : float)
    (left_color right_color : float * float * float) : list value :=
  let '(lr, lg, lb) := left_color in
  let '(rr, rg, rb) := right_color in
  [VFloat left_endpoint; VFloat midpoint; VFloat right_endpoint;
   VFloat lr; VFloat lg; VFloat lb; VFloat 1;
   VFloat rr; VFloat rg; VFloat rb; VFloat 1;
   VInt 0;  (* Linear blending function *)
   VInt 0;  (* RGB coloring type *)
   VInt 0;  (* Fixed left endpoint color type *)
   VInt 0   (* Fixed right endpoint color type *)].

(** The body of the loop of [create_gimp_gradient] at index [i]. *)
Definition segment_at (colors : list string) (num_segments i : Z)
  : result (list value) :=
  color_i ← Py.getitem colors i;
  left_color ← hex_to_rgb color_i;
  color_i1 ← Py.getitem colors (i + 1);
  right_color ← hex_to_rgb color_i1;
  left_endpoint ← Py.int_truediv i num_segments;
  right_endpoint ← Py.int_truediv (i + 1) num_segments;
  let midpoint := ((left_endpoint + right_endpoint) / 2)%float in
  mret (segment_of left_endpoint midpoint right_endpoint
          left_color right_color).

(** The loop: [segments] grows by one segment at each index. *)
Fixpoint build_segments (colors : list string) (num_segments : Z)
    (indices : list Z) (segments : list (list value))
  : result (list (list value)) :=
  match indices with
  | [] => Ok segments
  | i :: rest =>
      segment ← segment_at colors num_segments i;
      build_segments colors num_segments rest (segments ++ [segment])
  end.

Definition LF : string := String "010" EmptyString.

Definition segment_line (segment : list value) : string :=
  Py.join " " (map str segment).

(** The list [gradient_content] before it is joined. *)
Definition gradient_content (name : string) (num_segments : Z)
    (segments : list (list value)) : list string :=
  fold_left (fun content segment => content ++ [segment_line segment])
    segments
    ["GIMP Gradient"; "Name: " +:+ name; Py.int_repr num_segments].

(** The first loop of [create_gimp_gradient]: the segments it builds. *)
Definition gradient_segments (colors : list string)
  : result (list (list value)) :=
  let num_segments := (Z.of_nat (length colors) - 1)%Z in
  build_segments colors num_segments (Py.range num_segments) [].

Definition create_gimp_gradient (name : string) (colors : list string)
  : result string :=
  let num_segments := (Z.of_nat (length colors) - 1)%Z in
  segments ← gradient_segments colors;
  mret (Py.join LF (gradient_content name num_segments segments)).

(** *** Input and output *)

Inductive event : Type :=
| Opened (path : string)          (* [open(path, 'w')] returned *)
| Wrote (path content : string)   (* the content written, the file closed *)
| Printed (line : string).        (* [print(line)] returned *)

(** The files, each under the name of the file itself, which several paths
    may lead to, and what the program has done so far. *)
Record world : Type := World {
  files : gmap string string;
  events : list event
}.

(** What the program takes from the operating system: the expansion of
    [~], the file a path leads to, and for each of the calls [open], [write]
    with the closing of the file, and [print], whether it fails in the world
    it is called in, and with which exception.  An [open] that fails has
    not touched the file.  A write that fails has brought the first [n]
    characters of the content to the file, which [open] had emptied. *)
Record environ : Type := Environ {
  expanduser : string -> string;
  file_of : string -> string;
  open_error : world -> string -> option exn;
  write_error : world -> string -> string -> option (nat * exn);
  print_error : world -> string -> option exn
}.

Definition io (A : Type) : Type := world -> result A * world.

#[global] Instance io_ret : MRet io := fun _ a w => (Ok a, w).
#[global] Instance io_bind : MBind io := fun _ _ f m w =>
  match m w with
  | (Ok a, w') => f a w'
  | (Raise e, w') => (Raise e, w')
  end.

(** A pure computation inside [io]: it leaves the world as it is. *)
Definition pure {A} (r : result A) : io A := fun w => (r, w).

(** The world after the file was opened for writing: the file is there and
    it is empty. *)
Definition opened (env : environ) (file_path : string) (w : world) : world :=
  {| files := <[file_of env file_path := EmptyString]> (files w);
     events := events w ++ [Opened file_path] |}.

(** The world after a write that failed: the file holds what reached it. *)
Definition cut_short (env : environ) (file_path content : string) (n : nat)
    (w : world) : world :=
  {| files := <[file_of env file_path := Py.take n content]> (files w);
     events := events w |}.

(** The world after the content was written and the file closed. *)
Definition written (env : environ) (file_path content : string) (w : world)
  : world :=
  {| files := <[file_of env file_path := content]> (files w);
     events := events w ++ [Wrote file_path content] |}.

Definition printed (line : string) (w : world) : world :=
  {| files := files w; events := events w ++ [Printed line] |}.

(** [open(file_path, 'w')] *)
Definition open_for_writing (env : environ) (file_path : string) : io unit :=
  fun w =>
    match open_error env w file_path with
    | Some e => (Raise e, w)
    | None => (Ok tt, opened env file_path w)
    end.

(** [f.write(content)] and the end of the [with] block, which closes the
    file. *)
Definition write_and_close (env : environ) (file_path content : string)
  : io unit :=
  fun w =>
    match write_error env w file_path content with
    | Some (n, e) => (Raise e, cut_short env file_path content n w)
    | None => (Ok tt, written env file_path content w)
    end.

Definition write_gimp_gradient_file (env : environ) (content file_path : string)
  : io unit :=
  _ ← open_for_writing env file_path;
  write_and_close env file_path content.

Definition print (env : environ) (line : string) : io unit := fun w =>
  match print_error env w line with
  | Some e => (Raise e, w)
  | None => (Ok tt, printed line w)
  end.

(** An environment in which no call fails and every path leads to the file
    of its own name. *)
Definition plain_environ : environ :=
  {| expanduser := fun path => path;
     file_of := fun path => path;
     open_error := fun _ _ => None;
     write_error := fun _ _ _ => None;
     print_error := fun _ _ => None |}.

(** [os.path.join(a, b)] *)
Definition path_join (a b : string) : string :=
  if Py.startswith "/" b then b
  else match a with
       | EmptyString => b
       | _ => if Py.startswith "/" (Py.drop (String.length a - 1) a)
              then a +:+ b else a +:+ "/" +:+ b
       end.

(** The command-line arguments, as [argparse] returns them. *)
Record arguments : Type := Namespace {
  css_gradient : string;
  name : string;
  output : string
}.

Definition default_name : string := "Custom Gradient".
Definition default_output : string :=
  "~/Library/Application Support/GIMP/2.10/gradients/".

Definition main (env : environ) (args : arguments) : io unit :=
  let css_gradient := css_gradient args in
  let gradient_name := name args in
  let gimp_gradient_dir := expanduser env (output args) in
  let gimp_gradient_file :=
    path_join gimp_gradient_dir (gradient_name +:+ ".ggr") in
  colors ← pure (parse_css_gradient css_gradient);
  gimp_gradient_content ← pure (create_gimp_gradient gradient_name colors);
  _ ← write_gimp_gradient_file env gimp_gradient_content gimp_gradient_file;
  print env ("GIMP gradient saved to: " +:+ gimp_gradient_file).

(** ** Notions of the specification *)

(** The number a string of base-16 digits denotes. *)
Definition base16 (digits : string) : Z :=
  (fix go (acc : Z) (s : string) : Z :=
     match s with
     | EmptyString => acc
     | String c s' =>
         go (16 * acc + default 0 (Py.hex_val c))%Z s'
     end) 0%Z digits.

(** A channel value lies in [[0.0, 1.0]]. *)
Definition in_unit_interval (f : float) : bool :=
  ((0 <=? f) && (f <=? 1))%float.

(** [n] copies of the character [#]. *)
Fixpoint hashes (n : nat) : string :=
  match n with
  | O => EmptyString
  | S n' => String "#" (hashes n')
  end.

(** The colour six base-16 digits denote: each pair of digits over 255. *)
Definition rgb_of_digits (digits : string) : float * float * float :=
  (Py.int_div_float (base16 (Py.slice digits 0 2)) 255,
   Py.int_div_float (base16 (Py.slice digits 2 4)) 255,
   Py.int_div_float (base16 (Py.slice digits 4 6)) 255).

(** The token without its optional leading [#]. *)
Definition without_hash (token : string) : string :=
  match token with
  | String c rest => if Ascii.eqb c "#" then rest else token
  | EmptyString => token
  end.

Definition six_hex_digits (s : string) : bool :=
  (String.length s =? 6) && Py.all Py.is_hex_digit s.

(** The literals of at most two characters that [int(_, 16)] accepts: one
    or two base-16 digits, or one digit after a sign or next to a whitespace
    character. *)
Definition is_sign (c : ascii) : bool := Ascii.eqb c "+" || Ascii.eqb c "-".

Definition accepted_slice (s : string) : bool :=
  match s with
  | String a EmptyString => Py.is_hex_digit a
  | String a (String b EmptyString) =>
      Py.is_hex_digit b
        && (Py.is_hex_digit a || Py.is_int_space a || is_sign a)
      || Py.is_hex_digit a && Py.is_int_space b
  | _ => false
  end.

(** The characters a literal of [int(_, 16)] of at most two characters can
    hold. *)
Definition literal_char (c : ascii) : bool :=
  Py.is_hex_digit c || Py.is_int_space c || is_sign c.

(** Every character, by code point. *)
Definition all_chars : list ascii := map ascii_of_nat (seq 0 256).

(** A colour list the converter accepts throughout. *)
Definition valid_colors (colors : list string) : Prop :=
  Forall (fun color => is_ok (hex_to_rgb color) = true) colors.

(** The three positions of a segment. *)
Definition left_endpoint (segment : list value) : option value := segment !! 0.
Definition midpoint (segment : list value) : option value := segment !! 1.
Definition right_endpoint (segment : list value) : option value := segment !! 2.

(** The characters of the text of a number: digits, the point, the signs,
    the exponent mark and the letters of [inf] and [nan]. *)
Definition numeric_char (c : ascii) : bool :=
  let n := Py.code c in
  ((48 <=? n) && (n <=? 57))%N
  || existsb (Ascii.eqb c) ["."; "e"; "+"; "-"; "i"; "n"; "f"; "a"]%char.

Definition numeric_token (s : string) : bool :=
  negb (String.eqb s EmptyString) && Py.all numeric_char s.

(** No occurrence of the character [ch] in [s]. *)
Definition no_char (ch : ascii) (s : string) : bool :=
  Py.all (fun c => negb (Ascii.eqb c ch)) s.

(** The integer a decimal text denotes. *)
Definition read_int (s : string) : option Z :=
  Z.of_int <$> NilZero.int_of_string s.

(** The lines of a text. *)
Definition lines (text : string) : list string := Py.split "010" text.

(** The tokens of a line. *)
Definition tokens (line : string) : list string := Py.split " " line.

(** The layout of a segment line: fifteen tokens, each the text of a
    number; three positions, the left colour and its alpha 1.0, the right
    colour and its alpha 1.0, then the four selectors, all 0. *)
Definition segment_line_layout (line : string) : Prop :=
  exists left mid right lr lg lb rr rg rb : float,
    tokens line
    = [Py.float_repr left; Py.float_repr mid; Py.float_repr right;
       Py.float_repr lr; Py.float_repr lg; Py.float_repr lb; "1.0";
       Py.float_repr rr; Py.float_repr rg; Py.float_repr rb; "1.0";
       "0"; "0"; "0"; "0"] /\
    Forall (fun token => numeric_token token = true) (tokens line).

(** The layout of a gradient file of [count] segments: three header lines,
    then one line per segment. *)
Definition ggr_layout (name : string) (count : nat) (text : string) : Prop :=
  exists segment_lines,
    lines text
    = "GIMP Gradient" :: ("Name: " +:+ name)
        :: Py.int_repr (Z.of_nat count) :: segment_lines /\
    read_int (Py.int_repr (Z.of_nat count)) = Some (Z.of_nat count) /\
    length segment_lines = count /\
    Forall segment_line_layout segment_lines.

(** The general shape [linear-gradient(<direction>, <colors...>)]: the
    literal opening, a direction without a comma, a comma, whitespace, a
    colour text on one line, a closing parenthesis; anything may follow. *)
Definition gradient_shape (s : string) : Prop :=
  exists direction ws colors_str rest,
    s = "linear-gradient(" +:+ direction +:+ "," +:+ ws +:+ colors_str
        +:+ ")" +:+ rest /\
    direction <> EmptyString /\ no_char "," direction = true /\
    Py.all Py.is_space ws = true /\
    colors_str <> EmptyString /\ no_char "010" colors_str = true.

(** The two groups of the match, as the greedy engine picks them among the
    ways to take [s] apart: as much whitespace as possible is skipped after
    the comma, and the colour text then runs to the last closing parenthesis
    of its line. *)
Definition greedy_groups (s direction colors_str : string) : Prop :=
  exists ws rest,
    s = "linear-gradient(" +:+ direction +:+ "," +:+ ws +:+ colors_str
        +:+ ")" +:+ rest /\
    direction <> EmptyString /\ no_char "," direction = true /\
    Py.all Py.is_space ws = true /\
    colors_str <> EmptyString /\ no_char "010" colors_str = true /\
    (forall ws' colors_str' rest',
       ws +:+ colors_str +:+ ")" +:+ rest
       = ws' +:+ colors_str' +:+ ")" +:+ rest' ->
       Py.all Py.is_space ws' = true ->
       colors_str' <> EmptyString -> no_char "010" colors_str' = true ->
       String.length ws' <= String.length ws) /\
    (forall colors_str' rest',
       colors_str +:+ ")" +:+ rest = colors_str' +:+ ")" +:+ rest' ->
       no_char "010" colors_str' = true ->
       String.length colors_str' <= String.length colors_str).

(** The text before the first [ch], and the text after it. *)
Fixpoint cut_at (ch : ascii) (s : string) : option (string * string) :=
  match s with
  | EmptyString => None
  | String c s' =>
      if Ascii.eqb c ch then Some (EmptyString, s')
      else match cut_at ch s' with
           | Some (before, after) => Some (String c before, after)
           | None => None
           end
  end.

(** The direction clause: the text between the opening parenthesis and the
    first comma. *)
Definition direction_clause (s : string) : option string :=
  match cut_at "(" s with
  | Some (_, after) => fst <$> cut_at "," after
  | None => None
  end.

(** [needle] occurs in [hay]. *)
Definition substring (needle hay : string) : Prop :=
  exists before after, hay = before +:+ needle +:+ after.

(** [token] is [piece] without the whitespace around it. *)
Definition trimmed_of (piece token : string) : Prop :=
  exists ws1 ws2,
    piece = ws1 +:+ token +:+ ws2 /\
    Py.all Py.is_space ws1 = true /\ Py.all Py.is_space ws2 = true /\
    Py.lstrip_class Py.is_space token = token /\
    Py.rstrip_class Py.is_space token = token.

(** ** Further notions *)

(** The three colour entries of a colour, and where a segment holds those
    of its two ends. *)
Definition color_values (color : float * float * float) : list value :=
  let '(r, g, b) := color in [VFloat r; VFloat g; VFloat b].

Definition left_color (segment : list value) : list value :=
  take 3 (drop 3 segment).

Definition right_color (segment : list value) : list value :=
  take 3 (drop 7 segment).

(** The three bytes six base-16 digits denote. *)
Definition rgb_bytes (digits : string) : Z * Z * Z :=
  (base16 (Py.slice digits 0 2), base16 (Py.slice digits 2 4),
   base16 (Py.slice digits 4 6)).

(** The letters [a] to [f] in capitals, every other character as it is. *)
Definition capital (c : ascii) : ascii :=
  let n := Py.code c in
  if ((97 <=? n) && (n <=? 102))%N then ascii_of_N (n - 32) else c.

Fixpoint capitals (s : string) : string :=
  match s with
  | EmptyString => EmptyString
  | String c s' => String (capital c) (capitals s')
  end.

(** A channel is at least [-15 / 255.0], the value of the slice [-f], and at
    most 1.0. *)
Definition in_channel_range (f : float) : bool :=
  ((Py.int_div_float (-15) 255 <=? f) && (f <=? 1))%float.

(** The usual way to write a gradient of the given colour tokens. *)
Definition css_text (colors : list string) : string :=
  "linear-gradient(to right, " +:+ Py.join ", " colors +:+ ")".

(** A token that can be written between the commas of [css_text] and read
    back: no whitespace around it, no comma and no line feed in it. *)
Definition plain_token (token : string) : bool :=
  String.eqb (Py.strip token) token
  && no_char "," token && no_char "010" token.

(** The path [main] writes to, and the line it prints. *)
Definition gradient_file (env : environ) (args : arguments) : string :=
  path_join (expanduser env (output args)) (name args +:+ ".ggr").

Definition saved_line (file_path : string) : string :=
  "GIMP gradient saved to: " +:+ file_path.

(** The last two steps of [main]: the file is written, the line printed. *)
Definition save (env : environ) (content file_path : string) : io unit :=
  _ ← write_gimp_gradient_file env content file_path;
  print env (saved_line file_path).


(** What a computation returns, if it returns. *)
Definition value_of {A} (r : result A) : option A :=
  match r with
  | Ok a => Some a
  | Raise _ => None
  end.

(** Two optional integers are the same. *)
Definition same_int (x y : option Z) : bool :=
  match x, y with
  | Some a, Some b => (a =? b)%Z
  | None, None => true
  | _, _ => false
  end.

(** The integer of a literal of at most two characters is between -15 and
    255, and not negative when the literal holds no minus sign. *)
Definition slice_value_ok (s : string) : bool :=
  match Py.int16 s with
  | Ok v =>
      ((-15 <=? v) && (v <=? 255))%Z && implb (no_char "-" s) (0 <=? v)%Z
  | Raise _ => true
  end.

(** ** Tokens of any characters

    A [str] is here the list of its code points.  [int(lit, 16)] first
    rewrites such a literal in ASCII: a character below 127 stays, a
    whitespace character becomes a space, a decimal digit of any script
    becomes the ASCII digit of its value, and at the first character that is
    none of these the text ends with a question mark.  The literal is then
    read as an ASCII literal is. *)

Module Uni.

Definition of_string (s : string) : list N :=
  map Py.code (list_ascii_of_string s).

Definition to_string (s : list N) : string :=
  string_of_list_ascii (map ascii_of_N s).

(** [str.isspace] on one code point. *)
Definition is_space (ch : N) : bool :=
  ((9 <=? ch) && (ch <=? 13) || (28 <=? ch) && (ch <=? 32)
   || (ch =? 133) || (ch =? 160) || (ch =? 5760)
   || (8192 <=? ch) && (ch <=? 8202)
   || (ch =? 8232) || (ch =? 8233) || (ch =? 8239) || (ch =? 8287)
   || (ch =? 12288))%N.

(** The value of a decimal digit.  Beyond ASCII the decimal digits come in
    runs of ten, from the digit zero to the digit nine of a script; [zeros]
    lists the digits zero, as the Unicode database of the interpreter has
    them. *)
Definition decimal (zeros : list N) (ch : N) : option N :=
  if (ch <? 128)%N then
    if ((48 <=? ch) && (ch <=? 57))%N then Some (ch - 48)%N else None
  else
    (fun zero => (ch - zero)%N)
      <$> find (fun zero => ((zero <=? ch) && (ch <? zero + 10))%N) zeros.

(** The digits zero beyond ASCII in Unicode 14.0. *)
Definition decimal_zeros : list N :=
  [1632; 1776; 1984; 2406; 2534; 2662; 2790; 2918; 3046; 3174; 3302; 3430;
   3558; 3664; 3792; 3872; 4160; 4240; 6112; 6160; 6470; 6608; 6784; 6800;
   6992; 7088; 7232; 7248; 42528; 43216; 43264; 43472; 43504; 43600; 44016;
   65296; 66720; 68912; 69734; 69872; 69942; 70096; 70384; 70736; 70864;
   71248; 71360; 71472; 71904; 72016; 72784; 73040; 73120; 92768; 92864;
   93008; 120782; 120792; 120802; 120812; 120822; 123200; 123632; 125264;
   130032]%N.

(** The rewriting in ASCII of a literal that is not ASCII already. *)
Fixpoint to_ascii (zeros : list N) (s : list N) : string :=
  match s with
  | [] => EmptyString
  | ch :: s' =>
      if (ch <? 127)%N then String (ascii_of_N ch) (to_ascii zeros s')
      else if is_space ch then String " " (to_ascii zeros s')
      else match decimal zeros ch with
           | Some d => String (ascii_of_N (48 + d)) (to_ascii zeros s')
           | None => "?"
           end
  end.

Definition transform (zeros : list N) (s : list N) : string :=
  if forallb (fun ch => (ch <? 128)%N) s then to_string s
  else to_ascii zeros s.

(** [int(lit, 16)] *)
Definition int16 (zeros : list N) (lit : list N) : result Z :=
  match Py.int16 (transform zeros lit) with
  | Ok z => Ok z
  | Raise _ => Raise (InvalidLiteralOf lit)
  end.

(** [s.lstrip(chars)] for a one-character [chars]. *)
Fixpoint lstrip_char (ch : N) (s : list N) : list N :=
  match s with
  | [] => []
  | c :: s' => if (c =? ch)%N then lstrip_char ch s' else s
  end.

(** [s[i:j]] for [0 <= i <= j]. *)
Definition slice (s : list N) (i j : nat) : list N := take (j - i) (drop i s).

(** [int(hex_color[i:i+2], 16) / 255.0] *)
Definition channel (zeros : list N) (hex_color : list N) (i : nat)
  : result float :=
  n ← int16 zeros (slice hex_color i (i + 2));
  mret (Py.int_div_float n 255).

(** [hex_to_rgb] on a token of any characters. *)
Definition hex_to_rgb (zeros : list N) (hex_color : list N)
  : result (float * float * float) :=
  let hex_color := lstrip_char 35 hex_color in
  r ← channel zeros hex_color 0;
  g ← channel zeros hex_color 2;
  b ← channel zeros hex_color 4;
  mret (r, g, b).

(** *** The literals [int(_, 16)] accepts *)

(** A digit of a literal in base 16: a base-16 digit of ASCII, or a decimal
    digit of another script. *)
Definition is_digit (zeros : list N) (ch : N) : bool :=
  if (ch <? 128)%N then Py.is_hex_digit (ascii_of_N ch)
  else negb (is_space ch)
       && match decimal zeros ch with Some _ => true | None => false end.

(** The whitespace that may surround a literal: of ASCII the six characters
    tab to carriage return and the space, beyond ASCII all whitespace. *)
Definition is_int_space (ch : N) : bool :=
  if (ch <? 128)%N then ((9 <=? ch) && (ch <=? 13) || (ch =? 32))%N
  else is_space ch.

Definition is_sign (ch : N) : bool := ((ch =? 43) || (ch =? 45))%N.

(** The literals of at most two characters that [int(_, 16)] accepts: one or
    two digits, or one digit after a sign or next to a whitespace
    character. *)
Definition accepted_slice (zeros : list N) (s : list N) : bool :=
  match s with
  | [a] => is_digit zeros a
  | [a; b] =>
      is_digit zeros b && (is_digit zeros a || is_int_space a || is_sign a)
      || is_digit zeros a && is_int_space b
  | _ => false
  end.

(** The characters such a literal can hold. *)
Definition literal_char (zeros : list N) (ch : N) : bool :=
  is_digit zeros ch || is_int_space ch || is_sign ch.

End Uni.

(** * Properties *)

(** ** Characters and literals *)

Ltac each_char c := destruct c as [[] [] [] [] [] [] [] []].

Lemma hex_val_bounds c d : Py.hex_val c = Some d -> (0 <= d < 16)%Z.
Proof.
  each_char c; vm_compute; intros H;
    solve [discriminate H | injection H as <-; split; discriminate || reflexivity].
Qed.

(** A base-16 digit is none of the other characters a literal can hold. *)
Lemma hex_digit_plain c d :
  Py.hex_val c = Some d ->
  Py.is_int_space c = false /\ Ascii.eqb c "+" = false /\
  Ascii.eqb c "-" = false /\ Ascii.eqb c "#" = false /\
  Ascii.eqb c "x" = false /\ Ascii.eqb c "X" = false.
Proof.
  each_char c; vm_compute; intros H;
    solve [discriminate H | repeat split].
Qed.

Lemma is_hex_digit_val c :
  Py.is_hex_digit c = true -> exists d, Py.hex_val c = Some d.
Proof.
  unfold Py.is_hex_digit. destruct (Py.hex_val c) as [d|]; [eauto | discriminate].
Qed.

Lemma int16_two_digits a b da db :
  Py.hex_val a = Some da -> Py.hex_val b = Some db ->
  Py.int16 (String a (String b EmptyString)) = Ok (16 * da + db)%Z.
Proof.
  intros Ha Hb.
  destruct (hex_digit_plain a da Ha) as (Hs & Hp & Hm & _).
  destruct (hex_digit_plain b db Hb) as (_ & _ & _ & _ & Hx & HX).
  unfold Py.int16. cbn [Py.lstrip_class]. rewrite Hs.
  unfold Py.int_signed. rewrite Hp, Hm.
  unfold Py.skip_prefix. rewrite Hx, HX, andb_false_r.
  unfold Py.int_body, Py.hex_head. rewrite Ha.
  cbn [Py.int_digits]. rewrite Hb. reflexivity.
Qed.

Lemma base16_two_digits a b da db :
  Py.hex_val a = Some da -> Py.hex_val b = Some db ->
  base16 (String a (String b EmptyString)) = (16 * da + db)%Z.
Proof.
  intros Ha Hb. unfold base16. rewrite Ha, Hb. simpl. lia.
Qed.

(** ** Floats *)

Lemma unit_interval_bytes :
  forallb (fun n => in_unit_interval (Py.int_div_float (Z.of_nat n) 255))
    (seq 0 256) = true.
Proof. vm_compute. reflexivity. Qed.

Lemma unit_interval_byte z :
  (0 <= z < 256)%Z -> in_unit_interval (Py.int_div_float z 255) = true.
Proof.
  intros Hz.
  pose proof (proj1 (forallb_forall _ _) unit_interval_bytes (Z.to_nat z)) as H.
  cbv beta in H. rewrite Z2Nat.id in H by lia.
  apply H, in_seq. lia.
Qed.

(** ** Strings *)

Lemma append_cons c s t : String c s +:+ t = String c (s +:+ t).
Proof. reflexivity. Qed.

Lemma append_nil_l s : EmptyString +:+ s = s.
Proof. reflexivity. Qed.

Lemma lstrip_hashes n c s :
  Ascii.eqb "#" c = false ->
  Py.lstrip_char "#" (hashes n +:+ String c s) = String c s.
Proof.
  intros Hc. induction n as [|n IH]; unfold Py.lstrip_char in *.
  - rewrite append_nil_l. cbn [hashes Py.lstrip_class]. now rewrite Hc.
  - cbn [hashes]. rewrite append_cons. cbn [Py.lstrip_class].
    rewrite Ascii.eqb_refl. exact IH.
Qed.

Lemma all_chars_complete c : In c all_chars.
Proof.
  unfold all_chars. apply in_map_iff. exists (nat_of_ascii c). split.
  - apply ascii_nat_embedding.
  - apply in_seq. pose proof (nat_ascii_bounded c). lia.
Qed.

(** ** [hex_to_rgb] *)

(** Six base-16 digits, taken apart. *)
Lemma six_hex_digits_inv digits :
  six_hex_digits digits = true ->
  exists c1 c2 c3 c4 c5 c6 d1 d2 d3 d4 d5 d6,
    digits = String c1 (String c2 (String c3 (String c4 (String c5
               (String c6 EmptyString))))) /\
    Py.hex_val c1 = Some d1 /\ Py.hex_val c2 = Some d2 /\
    Py.hex_val c3 = Some d3 /\ Py.hex_val c4 = Some d4 /\
    Py.hex_val c5 = Some d5 /\ Py.hex_val c6 = Some d6.
Proof.
  unfold six_hex_digits. intros H. apply andb_prop in H as [Hlen Hall].
  apply Nat.eqb_eq in Hlen.
  do 6 (destruct digits as [|? digits]; [discriminate Hlen|]).
  destruct digits; [|discriminate Hlen].
  cbn [Py.all] in Hall.
  repeat match goal with
         | H : _ && _ = true |- _ => apply andb_prop in H as [?%is_hex_digit_val ?]
         end.
  repeat match goal with H : exists _, _ |- _ => destruct H end.
  repeat eexists; eassumption.
Qed.

Lemma hex_to_rgb_stripped tok digits rest :
  Py.lstrip_char "#" tok = digits +:+ rest ->
  six_hex_digits digits = true ->
  hex_to_rgb tok = Ok (rgb_of_digits digits).
Proof.
  intros Htok Hd.
  destruct (six_hex_digits_inv digits Hd)
    as (c1 & c2 & c3 & c4 & c5 & c6 & d1 & d2 & d3 & d4 & d5 & d6
        & -> & H1 & H2 & H3 & H4 & H5 & H6).
  unfold hex_to_rgb. rewrite Htok. rewrite !append_cons.
  unfold channel, rgb_of_digits, Py.slice.
  cbn [Py.drop Py.take Nat.sub Nat.add].
  rewrite (int16_two_digits _ _ _ _ H1 H2), (int16_two_digits _ _ _ _ H3 H4),
    (int16_two_digits _ _ _ _ H5 H6).
  rewrite (base16_two_digits _ _ _ _ H1 H2), (base16_two_digits _ _ _ _ H3 H4),
    (base16_two_digits _ _ _ _ H5 H6).
  reflexivity.
Qed.

Lemma rgb_of_digits_unit digits :
  six_hex_digits digits = true ->
  let '(r, g, b) := rgb_of_digits digits in
  in_unit_interval r = true /\ in_unit_interval g = true /\
  in_unit_interval b = true.
Proof.
  intros Hd.
  destruct (six_hex_digits_inv digits Hd)
    as (c1 & c2 & c3 & c4 & c5 & c6 & d1 & d2 & d3 & d4 & d5 & d6
        & -> & H1 & H2 & H3 & H4 & H5 & H6).
  unfold rgb_of_digits, Py.slice. cbn [Py.drop Py.take Nat.sub].
  rewrite (base16_two_digits _ _ _ _ H1 H2), (base16_two_digits _ _ _ _ H3 H4),
    (base16_two_digits _ _ _ _ H5 H6).
  apply hex_val_bounds in H1, H2, H3, H4, H5, H6.
  repeat split; apply unit_interval_byte; lia.
Qed.

(** C3: a token made of [#] and six base-16 digits converts to the three
    two-digit numbers it holds, each divided by 255.0, and each channel lies
    in [[0.0, 1.0]]; black converts to (0, 0, 0) and white to (1, 1, 1). *)
Theorem hex_to_rgb_six_digits :
  (forall digits,
     six_hex_digits digits = true ->
     hex_to_rgb (String "#" digits) = Ok (rgb_of_digits digits) /\
     let '(r, g, b) := rgb_of_digits digits in
     in_unit_interval r = true /\ in_unit_interval g = true /\
     in_unit_interval b = true) /\
  hex_to_rgb "#000000" = Ok (0, 0, 0)%float /\
  hex_to_rgb "#ffffff" = Ok (1, 1, 1)%float.
Proof.
  split; [|split; vm_compute; reflexivity].
  intros digits Hd. split; [|exact (rgb_of_digits_unit digits Hd)].
  apply (hex_to_rgb_stripped _ digits EmptyString); [|exact Hd].
  destruct (six_hex_digits_inv digits Hd) as (c1 & ? & ? & ? & ? & ? & d1 & H).
  destruct H as (? & ? & ? & ? & ? & -> & H1 & _).
  apply hex_digit_plain in H1 as (_ & _ & _ & Hh & _).
  unfold Py.lstrip_char. cbn [Py.lstrip_class].
  rewrite Ascii.eqb_refl. cbn [Py.lstrip_class].
  rewrite Ascii.eqb_sym, Hh. rewrite !append_cons. reflexivity.
Qed.

Lemma hex_to_rgb_six_digits_witness :
  hex_to_rgb "#fbb040" = Ok (rgb_of_digits "fbb040").
Proof.
  exact (proj1 (proj1 hex_to_rgb_six_digits "fbb040" eq_refl)).
Defined.

(** C10: every leading [#] is stripped and whatever follows the first six
    characters is ignored. *)
Theorem hex_to_rgb_ignores_extra :
  (forall n digits rest,
     six_hex_digits digits = true ->
     hex_to_rgb (hashes n +:+ digits +:+ rest) = Ok (rgb_of_digits digits)) /\
  hex_to_rgb "##ff0000" = Ok (1, 0, 0)%float /\
  hex_to_rgb "#ff0000zz" = Ok (1, 0, 0)%float.
Proof.
  split; [|split; vm_compute; reflexivity].
  intros n digits rest Hd.
  apply (hex_to_rgb_stripped _ digits rest); [|exact Hd].
  destruct (six_hex_digits_inv digits Hd) as (c1 & ? & ? & ? & ? & ? & d1 & H).
  destruct H as (? & ? & ? & ? & ? & -> & H1 & _).
  apply hex_digit_plain in H1 as (_ & _ & _ & Hh & _).
  rewrite !append_cons. apply lstrip_hashes. now rewrite Ascii.eqb_sym.
Qed.

Lemma hex_to_rgb_ignores_extra_witness :
  hex_to_rgb (hashes 3 +:+ "00ff7f" +:+ "; junk") = Ok (rgb_of_digits "00ff7f").
Proof.
  exact (proj1 hex_to_rgb_ignores_extra 3 "00ff7f" "; junk" eq_refl).
Defined.

(** *** When [hex_to_rgb] raises *)

Lemma int16_pairs_checked :
  forallb (fun a => forallb (fun b =>
      Bool.eqb (is_ok (Py.int16 (String a (String b EmptyString))))
               (accepted_slice (String a (String b EmptyString))))
    all_chars) all_chars = true.
Proof. vm_compute. reflexivity. Qed.

Lemma int16_singles_checked :
  forallb (fun a =>
      Bool.eqb (is_ok (Py.int16 (String a EmptyString)))
               (accepted_slice (String a EmptyString)))
    all_chars = true.
Proof. vm_compute. reflexivity. Qed.

(** On a literal of at most two characters, [int(_, 16)] succeeds exactly
    on the accepted ones. *)
Lemma int16_short s :
  String.length s <= 2 -> is_ok (Py.int16 s) = accepted_slice s.
Proof.
  destruct s as [|a [|b [|c s]]]; cbn [String.length]; intros Hlen.
  - reflexivity.
  - apply eqb_prop.
    exact (proj1 (forallb_forall _ _) int16_singles_checked a
             (all_chars_complete a)).
  - apply eqb_prop.
    pose proof (proj1 (forallb_forall _ _) int16_pairs_checked a
                  (all_chars_complete a)) as Ha.
    exact (proj1 (forallb_forall _ _) Ha b (all_chars_complete b)).
  - lia.
Qed.

Lemma int16_raises lit e : Py.int16 lit = Raise e -> e = InvalidLiteral lit.
Proof.
  unfold Py.int16. destruct (Py.int_signed _); [discriminate|].
  now intros [= <-].
Qed.

Lemma take_length_le n s : String.length (Py.take n s) <= n.
Proof.
  revert s. induction n as [|n IH]; intros [|c s]; cbn; try lia.
  specialize (IH s). lia.
Qed.

Lemma channel_ok hex_color i :
  is_ok (channel hex_color i) = accepted_slice (Py.slice hex_color i (i + 2)).
Proof.
  unfold channel. rewrite <- int16_short.
  - destruct (Py.int16 _); reflexivity.
  - unfold Py.slice. replace (i + 2 - i) with 2 by lia. apply take_length_le.
Qed.

Lemma channel_raises hex_color i e :
  channel hex_color i = Raise e -> exists lit, e = InvalidLiteral lit.
Proof.
  unfold channel. destruct (Py.int16 _) eqn:H; [discriminate|].
  intros [= <-]. apply int16_raises in H. eauto.
Qed.

Lemma hex_to_rgb_ok tok :
  let rest := Py.lstrip_char "#" tok in
  is_ok (hex_to_rgb tok)
  = accepted_slice (Py.slice rest 0 2) && accepted_slice (Py.slice rest 2 4)
    && accepted_slice (Py.slice rest 4 6).
Proof.
  intros rest.
  pose proof (channel_ok rest 0) as H0. pose proof (channel_ok rest 2) as H2.
  pose proof (channel_ok rest 4) as H4. cbn [Nat.add] in H0, H2, H4.
  rewrite <- H0, <- H2, <- H4. clear H0 H2 H4.
  unfold hex_to_rgb. fold rest.
  destruct (channel rest 0); [|reflexivity].
  destruct (channel rest 2); [|reflexivity].
  destruct (channel rest 4); reflexivity.
Qed.

Lemma hex_to_rgb_raises tok e :
  hex_to_rgb tok = Raise e -> exists lit, e = InvalidLiteral lit.
Proof.
  unfold hex_to_rgb.
  destruct (channel _ 0) eqn:H0; [|intros [= <-]; eauto using channel_raises].
  destruct (channel _ 2) eqn:H2; [|intros [= <-]; eauto using channel_raises].
  destruct (channel _ 4) eqn:H4; [|intros [= <-]; eauto using channel_raises].
  discriminate.
Qed.

Lemma accepted_slice_literal s :
  accepted_slice s = true -> Py.all literal_char s = true.
Proof.
  destruct s as [|a [|b [|c s]]]; cbn [accepted_slice Py.all];
    try discriminate; unfold literal_char.
  - intros ->. reflexivity.
  - destruct (Py.is_hex_digit a), (Py.is_hex_digit b), (Py.is_int_space a),
      (Py.is_int_space b), (is_sign a); cbn; intros H;
      solve [reflexivity | discriminate H].
Qed.

Lemma all_get p s i c :
  Py.all p s = true -> String.get i s = Some c -> p c = true.
Proof.
  revert i. induction s as [|a s IH]; intros i; [discriminate|].
  cbn [Py.all]. intros [Ha Hs]%andb_prop. destruct i as [|i]; cbn.
  - now intros [= <-].
  - eauto.
Qed.

Lemma accepted_slices_literal rest i c :
  accepted_slice (Py.slice rest 0 2) = true ->
  accepted_slice (Py.slice rest 2 4) = true ->
  accepted_slice (Py.slice rest 4 6) = true ->
  i < 6 -> String.get i rest = Some c -> literal_char c = true.
Proof.
  intros H0 H2 H4 Hi Hget.
  apply accepted_slice_literal in H0, H2, H4.
  unfold Py.slice in *. cbn [Nat.sub] in *.
  destruct rest as [|c1 [|c2 [|c3 [|c4 [|c5 [|c6 r]]]]]];
    cbn [Py.drop Py.take Py.all] in *;
    do 6 (destruct i as [|i]; [cbn in Hget; try discriminate Hget;
                               injection Hget as <-;
                               repeat match goal with
                                 | H : _ && _ = true |- _ =>
                                     apply andb_prop in H as [? ?]
                                 end; assumption|]);
    lia.
Qed.

(** The counterexample to C6 as stated: what is left of ["#ff0000zz"]
    after its [#] is not six base-16 digits, and the token converts. *)
Lemma hex_to_rgb_accepts_trailing :
  six_hex_digits (without_hash "#ff0000zz") = false /\
  hex_to_rgb "#ff0000zz" = Ok (1, 0, 0)%float.
Proof. split; vm_compute; reflexivity. Qed.

(** ** Integer division into a float *)

Lemma div_core_self p :
  SFdiv_core_binary prec emax (Zpos p) 0 (Zpos p) 0
  = ((2 ^ 53)%Z, (-53)%Z, loc_Exact).
Proof.
  unfold SFdiv_core_binary.
  replace (Zdigits2 (Z.pos p) + 0 - (Zdigits2 (Z.pos p) + 0))%Z with 0%Z by lia.
  change (Z.min (fexp prec emax 0) (0 - 0)) with (-53)%Z.
  change (0 - 0 - -53)%Z with 53%Z. cbv iota beta.
  rewrite Z.shiftl_mul_pow2 by lia.
  assert (Z.pos p * 2 ^ 53 / Z.pos p = 2 ^ 53)%Z as Hq
    by (rewrite Z.mul_comm; apply Z.div_mul; lia).
  assert ((Z.pos p * 2 ^ 53) mod Z.pos p = 0)%Z as Hr
    by (rewrite Z.mul_comm; apply Z.mod_mul; lia).
  unfold Z.div, Z.modulo in Hq, Hr.
  destruct (Z.div_eucl (Z.pos p * 2 ^ 53) (Z.pos p)) as [q r]. subst q r.
  unfold new_location. destruct (Z.even (Z.pos p)); reflexivity.
Qed.

Lemma not_too_large a b : (0 <= a <= b)%Z -> (0 < b)%Z -> Py.too_large a b = false.
Proof.
  intros Ha Hb. unfold Py.too_large. apply Z.leb_gt.
  assert (1 < 2 ^ 1024 - 2 ^ 970)%Z as Hk by reflexivity.
  rewrite !Z.abs_eq by lia. nia.
Qed.

(** Within [0 <= a <= b], [b <> 0], the division raises nothing. *)
Lemma int_truediv_ok a b :
  (0 <= a <= b)%Z -> (0 < b)%Z ->
  Py.int_truediv a b = Ok (SF2Prim (SFdiv prec emax (Py.Z2SF a) (Py.Z2SF b))).
Proof.
  intros Ha Hb. unfold Py.int_truediv.
  rewrite (proj2 (Z.eqb_neq b 0)) by lia.
  now rewrite not_too_large.
Qed.

(** [0 / b] is [0.0], exactly. *)
Lemma int_truediv_zero b : (0 < b)%Z -> Py.int_truediv 0 b = Ok 0%float.
Proof.
  intros Hb. rewrite int_truediv_ok by lia.
  destruct b as [|p|p]; try lia. reflexivity.
Qed.

(** [b / b] is [1.0], exactly. *)
Lemma int_truediv_self b : (0 < b)%Z -> Py.int_truediv b b = Ok 1%float.
Proof.
  intros Hb. rewrite int_truediv_ok by lia.
  destruct b as [|p|p]; try lia.
  cbn [Py.Z2SF]. unfold SFdiv. rewrite div_core_self. vm_compute. reflexivity.
Qed.

(** ** The segments of [create_gimp_gradient] *)

Lemma range_lookup n i :
  (0 <= i < n)%Z -> Py.range n !! Z.to_nat i = Some i.
Proof.
  intros Hi. unfold Py.range.
  rewrite list_lookup_fmap, lookup_seq_lt by lia. cbn. f_equal. lia.
Qed.

Lemma range_length n : length (Py.range n) = Z.to_nat n.
Proof. unfold Py.range. now rewrite length_map, length_seq. Qed.

Lemma range_elem n i : In i (Py.range n) -> (0 <= i < n)%Z.
Proof.
  unfold Py.range. rewrite in_map_iff. intros (k & <- & Hk%in_seq). lia.
Qed.

Lemma getitem_lookup {A} (l : list A) (i : Z) x :
  (0 <= i)%Z -> l !! Z.to_nat i = Some x -> Py.getitem l i = Ok x.
Proof.
  intros Hi Hx. unfold Py.getitem.
  rewrite (proj2 (Z.ltb_ge i 0)) by lia.
  rewrite (proj2 (Z.ltb_ge i 0)) by lia. now rewrite Hx.
Qed.

Section Loop.
Variable colors : list string.
Variable num_segments : Z.

(** What the loop returns: the segments it started from, then one segment
    for each index, in order. *)
Lemma build_segments_spec indices acc segments :
  build_segments colors num_segments indices acc = Ok segments <->
  exists news,
    segments = acc ++ news /\
    Forall2 (fun i segment => segment_at colors num_segments i = Ok segment)
      indices news.
Proof.
  revert acc. induction indices as [|i rest IH]; intros acc; cbn.
  - split.
    + intros [= <-]. exists []. split; [now rewrite app_nil_r | constructor].
    + intros (news & -> & Hall). inversion Hall. now rewrite app_nil_r.
  - destruct (segment_at colors num_segments i) as [segment|e] eqn:Hseg; cbn.
    + rewrite IH. split.
      * intros (news & -> & Hall). exists (segment :: news).
        split; [now rewrite <- app_assoc | now constructor].
      * intros (news & -> & Hall).
        inversion Hall as [|? seg' ? news' Hhd Htl]; subst.
        rewrite Hseg in Hhd. injection Hhd as <-.
        exists news'. split; [now rewrite <- app_assoc | assumption].
    + split; [discriminate|].
      intros (news & _ & Hall). inversion Hall; subst. congruence.
Qed.

(** The loop returns when its body does at each index. *)
Lemma build_segments_total indices acc :
  Forall (fun i => is_ok (segment_at colors num_segments i) = true) indices ->
  exists segments,
    build_segments colors num_segments indices acc = Ok segments.
Proof.
  revert acc. induction indices as [|i rest IH]; intros acc Hall; cbn.
  - eauto.
  - inversion Hall as [|? ? Hi Hrest]; subst.
    destruct (segment_at colors num_segments i); [|discriminate Hi].
    cbn. apply IH, Hrest.
Qed.
End Loop.

(** The body of the loop at an index of [range(len(colors) - 1)], on valid
    colours: nothing raises, and the segment holds the positions
    [i / num_segments], their mean and [(i + 1) / num_segments], then the
    colours of [colors[i]] and [colors[i+1]]. *)
Lemma segment_at_valid colors i :
  valid_colors colors ->
  (0 <= i < Z.of_nat (length colors) - 1)%Z ->
  exists l r color_i color_i1 left_color right_color,
    Py.int_truediv i (Z.of_nat (length colors) - 1) = Ok l /\
    Py.int_truediv (i + 1) (Z.of_nat (length colors) - 1) = Ok r /\
    colors !! Z.to_nat i = Some color_i /\
    colors !! S (Z.to_nat i) = Some color_i1 /\
    hex_to_rgb color_i = Ok left_color /\
    hex_to_rgb color_i1 = Ok right_color /\
    segment_at colors (Z.of_nat (length colors) - 1) i
    = Ok (segment_of l ((l + r) / 2)%float r left_color right_color).
Proof.
  intros Hvalid Hi. set (n := (Z.of_nat (length colors) - 1)%Z) in *.
  destruct (lookup_lt_is_Some_2 colors (Z.to_nat i)) as [ci Hci]; [lia|].
  destruct (lookup_lt_is_Some_2 colors (Z.to_nat (i + 1))) as [cj Hcj]; [lia|].
  unfold valid_colors in Hvalid. rewrite Forall_forall in Hvalid.
  assert (is_ok (hex_to_rgb ci) = true) as Hoki
    by (apply Hvalid; eapply list_elem_of_lookup_2, Hci).
  assert (is_ok (hex_to_rgb cj) = true) as Hokj
    by (apply Hvalid; eapply list_elem_of_lookup_2, Hcj).
  destruct (hex_to_rgb ci) as [left_color|] eqn:Hl; [|discriminate].
  destruct (hex_to_rgb cj) as [right_color|] eqn:Hr; [|discriminate].
  eexists _, _, ci, cj, left_color, right_color.
  split; [apply int_truediv_ok; lia|].
  split; [apply int_truediv_ok; lia|].
  split; [exact Hci|].
  split; [now replace (S (Z.to_nat i)) with (Z.to_nat (i + 1)) by lia|].
  split; [exact Hl|]. split; [exact Hr|].
  unfold segment_at.
  rewrite (getitem_lookup colors i ci) by (lia || assumption). cbn.
  rewrite Hl. cbn.
  rewrite (getitem_lookup colors (i + 1) cj) by (lia || assumption). cbn.
  rewrite Hr. cbn. fold n.
  rewrite !int_truediv_ok by lia. reflexivity.
Qed.

(** On valid colours the loop of [create_gimp_gradient] returns one segment
    per index of [range(len(colors) - 1)]. *)
Lemma gradient_segments_valid colors :
  valid_colors colors ->
  exists segments,
    gradient_segments colors = Ok segments /\
    Forall2 (fun i segment =>
               segment_at colors (Z.of_nat (length colors) - 1) i = Ok segment)
      (Py.range (Z.of_nat (length colors) - 1)) segments.
Proof.
  intros Hvalid. unfold gradient_segments.
  destruct (build_segments_total colors (Z.of_nat (length colors) - 1)
              (Py.range (Z.of_nat (length colors) - 1)) []) as [segments Hb].
  - apply Forall_forall. intros i Hi%list_elem_of_In%range_elem.
    destruct (segment_at_valid colors i Hvalid Hi)
      as (? & ? & ? & ? & ? & ? & _ & _ & _ & _ & _ & _ & ->).
    reflexivity.
  - exists segments. split; [exact Hb|].
    apply build_segments_spec in Hb as (news & -> & Hall). exact Hall.
Qed.

Lemma segment_of_positions l m r left_color right_color :
  left_endpoint (segment_of l m r left_color right_color) = Some (VFloat l) /\
  midpoint (segment_of l m r left_color right_color) = Some (VFloat m) /\
  right_endpoint (segment_of l m r left_color right_color) = Some (VFloat r).
Proof. destruct left_color as [[? ?] ?], right_color as [[? ?] ?]. now cbn. Qed.

(** The segment at position [i] of the result. *)
Lemma gradient_segments_lookup colors segments i segment :
  valid_colors colors ->
  gradient_segments colors = Ok segments ->
  segments !! i = Some segment ->
  (Z.of_nat i < Z.of_nat (length colors) - 1)%Z /\
  exists l r color_i color_i1 left_color right_color,
    Py.int_truediv (Z.of_nat i) (Z.of_nat (length colors) - 1) = Ok l /\
    Py.int_truediv (Z.of_nat i + 1) (Z.of_nat (length colors) - 1) = Ok r /\
    colors !! i = Some color_i /\ colors !! S i = Some color_i1 /\
    hex_to_rgb color_i = Ok left_color /\
    hex_to_rgb color_i1 = Ok right_color /\
    segment = segment_of l ((l + r) / 2)%float r left_color right_color.
Proof.
  intros Hvalid Hsegs Hi.
  apply build_segments_spec in Hsegs as (news & -> & Hall). cbn in Hi.
  destruct (Forall2_lookup_r _ _ _ _ _ Hall Hi) as (k & Hk & Hseg).
  pose proof (lookup_lt_Some _ _ _ Hk) as Hlt. rewrite range_length in Hlt.
  assert (k = Z.of_nat i) as ->.
  { rewrite <- (Nat2Z.id i) in Hk. rewrite range_lookup in Hk by lia.
    congruence. }
  split; [lia|].
  destruct (segment_at_valid colors (Z.of_nat i) Hvalid ltac:(lia))
    as (l & r & ci & cj & lc & rc & Hl & Hr & Hci & Hcj & Hlc & Hrc & Hat).
  rewrite Hat in Hseg. injection Hseg as <-. rewrite Nat2Z.id in Hci, Hcj.
  exists l, r, ci, cj, lc, rc. repeat split; assumption.
Qed.

(** The positions of the segment at position [i]. *)
Lemma gradient_segments_positions colors segments i segment :
  valid_colors colors ->
  gradient_segments colors = Ok segments ->
  segments !! i = Some segment ->
  exists l r,
    Py.int_truediv (Z.of_nat i) (Z.of_nat (length colors) - 1) = Ok l /\
    Py.int_truediv (Z.of_nat i + 1) (Z.of_nat (length colors) - 1) = Ok r /\
    left_endpoint segment = Some (VFloat l) /\
    midpoint segment = Some (VFloat ((l + r) / 2)%float) /\
    right_endpoint segment = Some (VFloat r).
Proof.
  intros Hvalid Hsegs Hi.
  destruct (gradient_segments_lookup colors segments i segment Hvalid Hsegs Hi)
    as (_ & l & r & _ & _ & lc & rc & Hl & Hr & _ & _ & _ & _ & ->).
  exists l, r. pose proof (segment_of_positions l ((l + r) / 2)%float r lc rc).
  tauto.
Qed.

(** C1: for two colours or more, all of them valid, segment [i] runs from
    [i / (N - 1)] to [(i + 1) / (N - 1)] with their mean as midpoint; the
    first segment starts at 0.0 and the last ends at 1.0, exactly, and each
    segment starts where the one before it ends. *)
Theorem segments_partition colors :
  2 <= length colors ->
  valid_colors colors ->
  exists segments,
    gradient_segments colors = Ok segments /\
    (forall name, exists text, create_gimp_gradient name colors = Ok text) /\
    length segments = length colors - 1 /\
    (forall i segment,
       segments !! i = Some segment ->
       exists l r,
         Py.int_truediv (Z.of_nat i) (Z.of_nat (length colors) - 1) = Ok l /\
         Py.int_truediv (Z.of_nat i + 1) (Z.of_nat (length colors) - 1) = Ok r /\
         left_endpoint segment = Some (VFloat l) /\
         midpoint segment = Some (VFloat ((l + r) / 2)%float) /\
         right_endpoint segment = Some (VFloat r)) /\
    (exists first,
       segments !! 0 = Some first /\
       left_endpoint first = Some (VFloat 0)) /\
    (exists last,
       segments !! (length colors - 2) = Some last /\
       right_endpoint last = Some (VFloat 1)) /\
    (forall i segment next,
       segments !! i = Some segment -> segments !! S i = Some next ->
       right_endpoint segment = left_endpoint next).
Proof.
  intros Hlen Hvalid.
  destruct (gradient_segments_valid colors Hvalid) as (segments & Hsegs & Hall).
  assert (length segments = length colors - 1) as Hcount.
  { rewrite <- (Forall2_length _ _ _ Hall), range_length. lia. }
  exists segments. split; [exact Hsegs|].
  split; [intros name; unfold create_gimp_gradient; rewrite Hsegs; cbn; eauto|].
  split; [exact Hcount|].
  split; [|split; [|split]].
  - intros i segment Hi.
    exact (gradient_segments_positions colors segments i segment
             Hvalid Hsegs Hi).
  - destruct (lookup_lt_is_Some_2 segments 0) as [first Hfirst]; [lia|].
    exists first. split; [exact Hfirst|].
    destruct (gradient_segments_positions colors segments 0 first
                Hvalid Hsegs Hfirst) as (l & r & Hl & _ & -> & _).
    rewrite int_truediv_zero in Hl by lia. congruence.
  - destruct (lookup_lt_is_Some_2 segments (length colors - 2))
      as [last Hlast]; [lia|].
    exists last. split; [exact Hlast|].
    destruct (gradient_segments_positions colors segments _ last
                Hvalid Hsegs Hlast) as (l & r & _ & Hr & _ & _ & ->).
    replace (Z.of_nat (length colors - 2) + 1)%Z
      with (Z.of_nat (length colors) - 1)%Z in Hr by lia.
    rewrite int_truediv_self in Hr by lia. congruence.
  - intros i segment next Hi Hnext.
    destruct (gradient_segments_positions colors segments i segment
                Hvalid Hsegs Hi) as (l & r & _ & Hr & _ & _ & ->).
    destruct (gradient_segments_positions colors segments (S i) next
                Hvalid Hsegs Hnext) as (l' & r' & Hl' & _ & -> & _).
    replace (Z.of_nat (S i)) with (Z.of_nat i + 1)%Z in Hl' by lia.
    congruence.
Qed.

(** ** Joining and splitting *)

Lemma all_append p s t : Py.all p (s +:+ t) = Py.all p s && Py.all p t.
Proof.
  induction s as [|c s IH]; [reflexivity|].
  rewrite append_cons. cbn [Py.all]. now rewrite IH, andb_assoc.
Qed.

Lemma all_impl (p q : ascii -> bool) s :
  (forall c, p c = true -> q c = true) -> Py.all p s = true -> Py.all q s = true.
Proof.
  intros Hpq. induction s as [|c s IH]; [reflexivity|]. cbn [Py.all].
  intros [Hc Hs]%andb_prop. now rewrite (Hpq c Hc), IH.
Qed.

Lemma all_take p n s : Py.all p s = true -> Py.all p (Py.take n s) = true.
Proof.
  revert s. induction n as [|n IH]; intros [|c s]; cbn; try reflexivity.
  intros [-> Hs]%andb_prop. now apply IH.
Qed.

Lemma all_drop p n s : Py.all p s = true -> Py.all p (Py.drop n s) = true.
Proof.
  revert s. induction n as [|n IH]; intros [|c s]; cbn; try tauto.
  intros [_ Hs]%andb_prop. now apply IH.
Qed.

Lemma all_rstrip p q s :
  Py.all p s = true -> Py.all p (Py.rstrip_class q s) = true.
Proof.
  induction s as [|c s IH]; [reflexivity|]. cbn [Py.all Py.rstrip_class].
  intros [Hc Hs]%andb_prop. specialize (IH Hs).
  destruct (Py.rstrip_class q s) as [|c' r].
  - destruct (q c); cbn; [reflexivity | now rewrite Hc].
  - cbn [Py.all] in *. now rewrite Hc.
Qed.

Lemma all_lstrip p q s :
  Py.all p s = true -> Py.all p (Py.lstrip_class q s) = true.
Proof.
  induction s as [|c s IH]; [reflexivity|]. cbn [Py.all Py.lstrip_class].
  intros H. destruct (q c); [|exact H].
  apply andb_prop in H as [_ Hs]. auto.
Qed.

(** A text without the separator is one piece. *)
Lemma split_no_sep sep s : no_char sep s = true -> Py.split sep s = [s].
Proof.
  induction s as [|c s IH]; [reflexivity|]. unfold no_char in *.
  cbn [Py.all Py.split]. intros [Hc Hs]%andb_prop.
  apply negb_true_iff in Hc. now rewrite Hc, IH.
Qed.

Lemma split_append_sep sep s t :
  no_char sep s = true ->
  Py.split sep (s +:+ String sep t) = s :: Py.split sep t.
Proof.
  induction s as [|c s IH]; unfold no_char in *.
  - intros _. rewrite append_nil_l. cbn [Py.split].
    now rewrite Ascii.eqb_refl.
  - rewrite append_cons. cbn [Py.all Py.split]. intros [Hc Hs]%andb_prop.
    apply negb_true_iff in Hc. now rewrite Hc, IH.
Qed.

(** Splitting undoes joining when no piece holds the separator. *)
Lemma split_join sep pieces :
  pieces <> [] ->
  Forall (fun piece => no_char sep piece = true) pieces ->
  Py.split sep (Py.join (String sep EmptyString) pieces) = pieces.
Proof.
  intros Hne Hall. induction Hall as [|piece rest Hp Hrest IH]; [congruence|].
  destruct rest as [|next rest].
  - cbn [Py.join]. now apply split_no_sep.
  - change (Py.join (String sep EmptyString) (piece :: next :: rest))
      with (piece +:+ String sep EmptyString
            +:+ Py.join (String sep EmptyString) (next :: rest)).
    rewrite append_cons, append_nil_l, split_append_sep by exact Hp.
    now rewrite IH.
Qed.

Lemma join_no_char ch sep pieces :
  no_char ch sep = true ->
  Forall (fun piece => no_char ch piece = true) pieces ->
  no_char ch (Py.join sep pieces) = true.
Proof.
  intros Hsep Hall. unfold no_char in *.
  induction Hall as [|piece rest Hp Hrest IH]; [reflexivity|].
  destruct rest as [|next rest]; [exact Hp|].
  change (Py.join sep (piece :: next :: rest))
    with (piece +:+ sep +:+ Py.join sep (next :: rest)).
  now rewrite !all_append, Hp, Hsep, IH.
Qed.

(** ** The text of numbers *)

Lemma numeric_char_no_separator c :
  numeric_char c = true ->
  negb (Ascii.eqb c " ") = true /\ negb (Ascii.eqb c "010") = true.
Proof. each_char c; vm_compute; intros H; solve [discriminate H | now split]. Qed.

Lemma uint_numeric u : Py.all numeric_char (NilEmpty.string_of_uint u) = true.
Proof. induction u; cbn [NilEmpty.string_of_uint Py.all]; now rewrite ?IHu. Qed.

Lemma int_repr_numeric z : Py.all numeric_char (Py.int_repr z) = true.
Proof.
  unfold Py.int_repr, NilZero.string_of_int, NilZero.string_of_uint.
  destruct (Z.to_int z) as [u|u]; destruct u; try reflexivity;
    cbn [Py.all]; rewrite ?andb_true_l; apply uint_numeric.
Qed.

Lemma int_repr_nonempty z : Py.int_repr z <> EmptyString.
Proof.
  unfold Py.int_repr, NilZero.string_of_int, NilZero.string_of_uint.
  destruct (Z.to_int z) as [u|u]; destruct u; discriminate.
Qed.

Lemma zeros_numeric n : Py.all numeric_char (Py.zeros n) = true.
Proof. induction n; [reflexivity|]. cbn [Py.zeros Py.all]. now rewrite IHn. Qed.

Lemma pad2_numeric s :
  Py.all numeric_char s = true -> Py.all numeric_char (Py.pad2 s) = true.
Proof.
  destruct s as [|c [|c' s]]; cbn [Py.pad2]; tauto.
Qed.

Lemma layout_numeric ds decpt :
  Py.all numeric_char ds = true ->
  Py.all numeric_char (Py.layout ds decpt) = true.
Proof.
  intros Hds. unfold Py.layout.
  destruct (_ || _); [|destruct (_ <=? _)%Z; [|destruct (_ <=? _)%Z]];
    rewrite !all_append, ?zeros_numeric, ?Hds, ?all_take, ?all_drop,
      ?pad2_numeric by (exact Hds || apply int_repr_numeric);
    rewrite ?andb_true_r; try reflexivity.
  apply andb_true_intro. split.
  - destruct ds as [|c [|c' rest]]; exact Hds.
  - now destruct (_ <? _)%Z.
Qed.

Lemma append_empty s t :
  s +:+ t = EmptyString -> s = EmptyString /\ t = EmptyString.
Proof. destruct s; [now rewrite append_nil_l | discriminate]. Qed.

Lemma layout_nonempty ds decpt :
  ds <> EmptyString -> Py.layout ds decpt <> EmptyString.
Proof.
  intros Hds. unfold Py.layout.
  destruct (_ || _); [|destruct (_ <=? _)%Z; [|destruct (_ <=? _)%Z]].
  - destruct ds as [|c [|c' rest]]; [congruence | discriminate | discriminate].
  - discriminate.
  - now intros [H _]%append_empty.
  - intros [_ H]%append_empty. discriminate H.
Qed.

Lemma rstrip_empty q s :
  Py.rstrip_class q s = EmptyString -> Py.all q s = true.
Proof.
  induction s as [|c s IH]; [reflexivity|]. cbn [Py.rstrip_class Py.all].
  destruct (Py.rstrip_class q s); [|discriminate].
  destruct (q c); [intros _; now apply IH | discriminate].
Qed.

Lemma zero_digits_value u :
  Py.all (Ascii.eqb "0") (NilEmpty.string_of_uint u) = true ->
  Pos.of_uint u = 0%N.
Proof.
  induction u; cbn [NilEmpty.string_of_uint Py.all]; try discriminate.
  - reflexivity.
  - intros H. apply IHu. exact H.
Qed.

Lemma digits_of_significant d :
  Py.rstrip_class (Ascii.eqb "0") (Py.digits_of d) <> EmptyString.
Proof.
  unfold Py.digits_of. intros H%rstrip_empty%zero_digits_value.
  rewrite DecimalPos.Unsigned.of_to in H. discriminate.
Qed.

Lemma repr_finite_numeric m e : numeric_token (Py.repr_finite m e) = true.
Proof.
  unfold numeric_token, Py.repr_finite.
  destruct (Py.shortest_from _ _ _ _) as [d x].
  apply andb_true_intro. split.
  - apply negb_true_iff, String.eqb_neq, layout_nonempty, digits_of_significant.
  - apply layout_numeric, all_rstrip, uint_numeric.
Qed.

(** The text of a float is a numeric token. *)
Lemma float_repr_numeric f : numeric_token (Py.float_repr f) = true.
Proof.
  unfold Py.float_repr.
  destruct (Prim2SF f) as [[]|[]| |[] m e]; try reflexivity;
    pose proof (repr_finite_numeric (Z.pos m) e) as H;
    unfold numeric_token, Py.with_sign in *;
    apply andb_prop in H as [_ H]; cbn [Py.all String.eqb negb andb];
    rewrite ?H; try reflexivity.
  destruct (Py.repr_finite (Z.pos m) e) eqn:Hr; [|reflexivity].
  pose proof (repr_finite_numeric (Z.pos m) e) as H'.
  rewrite Hr in H'. discriminate H'.
Qed.

Lemma int_repr_token z : numeric_token (Py.int_repr z) = true.
Proof.
  unfold numeric_token. rewrite int_repr_numeric, andb_true_r.
  apply negb_true_iff, String.eqb_neq, int_repr_nonempty.
Qed.

Lemma str_numeric v : numeric_token (str v) = true.
Proof. destruct v; [apply float_repr_numeric | apply int_repr_token]. Qed.

Lemma numeric_token_no_char token :
  numeric_token token = true ->
  no_char " " token = true /\ no_char "010" token = true.
Proof.
  unfold numeric_token, no_char. intros [_ H]%andb_prop.
  split; (eapply all_impl; [|exact H]); intros c Hc;
    now destruct (numeric_char_no_separator c Hc).
Qed.

(** The text of an integer reads back as that integer. *)
Lemma read_int_repr z : read_int (Py.int_repr z) = Some z.
Proof.
  unfold read_int, Py.int_repr. rewrite NilZero.isi.
  - cbn. now rewrite DecimalZ.of_to.
  - destruct z; cbn; try discriminate.
    intros [= H]. now apply DecimalPos.Unsigned.to_uint_nonnil in H.
  - destruct z; cbn; try discriminate.
    intros [= H]. now apply DecimalPos.Unsigned.to_uint_nonnil in H.
Qed.

(** ** The serialised gradient *)

Lemma gradient_content_eq name num_segments segments :
  gradient_content name num_segments segments
  = ["GIMP Gradient"; "Name: " +:+ name; Py.int_repr num_segments]
      ++ map segment_line segments.
Proof.
  unfold gradient_content.
  generalize ["GIMP Gradient"; "Name: " +:+ name; Py.int_repr num_segments].
  induction segments as [|segment rest IH]; intros content; cbn.
  - now rewrite app_nil_r.
  - rewrite IH. now rewrite <- app_assoc.
Qed.

(** The tokens of a segment line are the texts of its entries. *)
Lemma segment_line_tokens segment :
  segment <> [] -> tokens (segment_line segment) = map str segment.
Proof.
  intros Hne. unfold tokens, segment_line. apply split_join.
  - now destruct segment.
  - apply Forall_forall. intros token (v & -> & _)%list_elem_of_fmap.
    apply numeric_token_no_char, str_numeric.
Qed.

(** A segment line holds no line feed. *)
Lemma segment_line_one_line segment :
  no_char "010" (segment_line segment) = true.
Proof.
  unfold segment_line. apply join_no_char; [reflexivity|].
  apply Forall_forall. intros token (v & -> & _)%list_elem_of_fmap.
  apply numeric_token_no_char, str_numeric.
Qed.

Lemma segment_of_layout l m r left_color right_color :
  segment_line_layout (segment_line (segment_of l m r left_color right_color)).
Proof.
  destruct left_color as [[lr lg] lb], right_color as [[rr rg] rb].
  exists l, m, r, lr, lg, lb, rr, rg, rb.
  rewrite segment_line_tokens by discriminate. split; [reflexivity|].
  apply Forall_forall. intros token (v & -> & _)%list_elem_of_fmap.
  apply str_numeric.
Qed.

(** What [create_gimp_gradient] returns once its loop has returned. *)
Lemma create_gimp_gradient_eq name colors segments :
  gradient_segments colors = Ok segments ->
  create_gimp_gradient name colors
  = Ok (Py.join LF ("GIMP Gradient" :: ("Name: " +:+ name)
                      :: Py.int_repr (Z.of_nat (length colors) - 1)
                      :: map segment_line segments)).
Proof.
  intros Hsegs. unfold create_gimp_gradient. rewrite Hsegs. cbn.
  now rewrite gradient_content_eq.
Qed.

Lemma gradient_segments_count colors segments :
  gradient_segments colors = Ok segments ->
  length segments = length colors - 1.
Proof.
  intros Hsegs. apply build_segments_spec in Hsegs as (news & -> & Hall).
  cbn. rewrite <- (Forall2_length _ _ _ Hall), range_length. lia.
Qed.

Lemma header_lines (colors : list string) name segments :
  no_char "010" name = true ->
  lines (Py.join LF ("GIMP Gradient" :: ("Name: " +:+ name)
                       :: Py.int_repr (Z.of_nat (length colors) - 1)
                       :: map segment_line segments))
  = "GIMP Gradient" :: ("Name: " +:+ name)
      :: Py.int_repr (Z.of_nat (length colors) - 1)
      :: map segment_line segments.
Proof.
  intros Hname. apply (split_join "010"); [discriminate|].
  constructor; [reflexivity|].
  constructor; [unfold no_char in *; now rewrite all_append, Hname|].
  constructor; [apply numeric_token_no_char, int_repr_token|].
  apply Forall_forall. intros line (segment & -> & _)%list_elem_of_fmap.
  apply segment_line_one_line.
Qed.

(** C2: for two valid colours or more, the text has the count line [N - 1]
    and, after it, exactly [N - 1] lines, one for each segment: each is a
    line of fifteen numeric tokens, and line [i] is the text of the segment
    between the colours [i] and [i + 1]. *)
Theorem segment_count name colors :
  2 <= length colors ->
  valid_colors colors ->
  exists segments,
    let count_line := Py.int_repr (Z.of_nat (length colors) - 1) in
    let segment_lines := map segment_line segments in
    gradient_segments colors = Ok segments /\
    create_gimp_gradient name colors
    = Ok (Py.join LF ("GIMP Gradient" :: ("Name: " +:+ name)
                        :: count_line :: segment_lines)) /\
    read_int count_line = Some (Z.of_nat (length colors - 1)) /\
    length segment_lines = length colors - 1 /\
    lines (Py.join LF (count_line :: segment_lines))
    = count_line :: segment_lines /\
    Forall segment_line_layout segment_lines /\
    (forall i,
       i < length colors - 1 ->
       exists segment color_i color_i1 left_color right_color l r,
         segments !! i = Some segment /\
         segment_lines !! i = Some (segment_line segment) /\
         colors !! i = Some color_i /\ colors !! S i = Some color_i1 /\
         hex_to_rgb color_i = Ok left_color /\
         hex_to_rgb color_i1 = Ok right_color /\
         Py.int_truediv (Z.of_nat i) (Z.of_nat (length colors) - 1) = Ok l /\
         Py.int_truediv (Z.of_nat i + 1) (Z.of_nat (length colors) - 1) = Ok r /\
         tokens (segment_line segment)
         = map str (segment_of l ((l + r) / 2)%float r left_color right_color)).
Proof.
  intros Hlen Hvalid.
  destruct (gradient_segments_valid colors Hvalid) as (segments & Hsegs & _).
  pose proof (gradient_segments_count colors segments Hsegs) as Hcount.
  exists segments. cbv zeta.
  split; [exact Hsegs|].
  split; [now apply create_gimp_gradient_eq|].
  split; [rewrite read_int_repr; f_equal; lia|].
  split; [now rewrite length_map|].
  split; [|split].
  - apply (split_join "010"); [discriminate|].
    constructor; [apply numeric_token_no_char, int_repr_token|].
    apply Forall_forall. intros line (segment & -> & _)%list_elem_of_fmap.
    apply segment_line_one_line.
  - apply Forall_forall. intros line (segment & -> & Hin)%list_elem_of_fmap.
    apply list_elem_of_lookup_1 in Hin as [i Hi].
    destruct (gradient_segments_lookup colors segments i segment Hvalid Hsegs Hi)
      as (_ & l & r & ci & cj & lc & rc & _ & _ & _ & _ & _ & _ & ->).
    apply segment_of_layout.
  - intros i Hi.
    destruct (lookup_lt_is_Some_2 segments i) as [segment Hseg]; [lia|].
    destruct (gradient_segments_lookup colors segments i segment Hvalid Hsegs
                Hseg)
      as (_ & l & r & ci & cj & lc & rc & Hl & Hr & Hci & Hcj & Hlc & Hrc & ->).
    exists (segment_of l ((l + r) / 2)%float r lc rc), ci, cj, lc, rc, l, r.
    repeat split; try assumption.
    + now rewrite list_lookup_fmap, Hseg.
    + apply segment_line_tokens. now destruct lc as [[? ?] ?], rc as [[? ?] ?].
Qed.

Lemma segment_count_witness :
  exists segments,
    create_gimp_gradient "Custom Gradient" ["#fbb040"; "#fdb453"; "#ffb865"]
    = Ok (Py.join LF ("GIMP Gradient" :: "Name: Custom Gradient" :: "2"
                        :: map segment_line segments)) /\
    length segments = 2 /\
    Forall segment_line_layout (map segment_line segments).
Proof.
  destruct (segment_count "Custom Gradient" ["#fbb040"; "#fdb453"; "#ffb865"])
    as (segments & _ & Hout & _ & Hcount & _ & Hlayout & _).
  - cbn. lia.
  - repeat constructor.
  - exists segments. rewrite length_map in Hcount. repeat split; assumption.
Defined.

Lemma segments_partition_witness :
  exists segments,
    gradient_segments ["#fbb040"; "#fdb453"; "#ffb865"] = Ok segments /\
    length segments = 2.
Proof.
  destruct (segments_partition ["#fbb040"; "#fdb453"; "#ffb865"])
    as (segments & Hsegs & _ & Hcount & _).
  - cbn. lia.
  - repeat constructor.
  - exists segments. split; assumption.
Defined.

(** The counterexample to C4 as stated: a name that holds a line feed
    spreads over two lines, so that the third line of the text is not the
    segment count. *)
Lemma layout_broken_by_line_feed :
  exists text,
    create_gimp_gradient (String "a" (String "010" (String "b" EmptyString)))
      ["#ff0000"; "#00ff00"] = Ok text /\
    lines text
    = ["GIMP Gradient"; "Name: a"; "b"; "1";
       "0.0 0.5 1.0 1.0 0.0 0.0 1.0 0.0 1.0 0.0 1.0 0 0 0 0"] /\
    ~ ggr_layout (String "a" (String "010" (String "b" EmptyString))) 1 text.
Proof.
  eexists. split; [vm_compute; reflexivity|].
  split; [vm_compute; reflexivity|].
  intros (segment_lines & Hlines & _). vm_compute in Hlines. discriminate Hlines.
Qed.

(** C4, amended: for a name without a line feed and two valid colours or
    more, the text is three header lines, [GIMP Gradient], [Name: <name>]
    and the segment count in decimal, then one line per segment, of fifteen
    numeric tokens separated by single spaces: the positions, the two
    colours each followed by the alpha [1.0], and four selectors [0]. *)
Theorem gradient_file_layout name colors :
  no_char "010" name = true ->
  2 <= length colors ->
  valid_colors colors ->
  exists text segments,
    create_gimp_gradient name colors = Ok text /\
    ggr_layout name (length colors - 1) text /\
    gradient_segments colors = Ok segments /\
    lines text
    = "GIMP Gradient" :: ("Name: " +:+ name)
        :: Py.int_repr (Z.of_nat (length colors) - 1)
        :: map segment_line segments /\
    (forall i segment,
       segments !! i = Some segment ->
       exists l r color_i color_i1 left_color right_color,
         Py.int_truediv (Z.of_nat i) (Z.of_nat (length colors) - 1) = Ok l /\
         Py.int_truediv (Z.of_nat i + 1) (Z.of_nat (length colors) - 1) = Ok r /\
         colors !! i = Some color_i /\ colors !! S i = Some color_i1 /\
         hex_to_rgb color_i = Ok left_color /\
         hex_to_rgb color_i1 = Ok right_color /\
         tokens (segment_line segment)
         = map str (segment_of l ((l + r) / 2)%float r left_color right_color)).
Proof.
  intros Hname Hlen Hvalid.
  destruct (gradient_segments_valid colors Hvalid) as (segments & Hsegs & _).
  eexists _, segments.
  split; [exact (create_gimp_gradient_eq name colors segments Hsegs)|].
  assert (forall i segment,
            segments !! i = Some segment ->
            exists l r color_i color_i1 left_color right_color,
              Py.int_truediv (Z.of_nat i) (Z.of_nat (length colors) - 1) = Ok l /\
              Py.int_truediv (Z.of_nat i + 1) (Z.of_nat (length colors) - 1)
              = Ok r /\
              colors !! i = Some color_i /\ colors !! S i = Some color_i1 /\
              hex_to_rgb color_i = Ok left_color /\
              hex_to_rgb color_i1 = Ok right_color /\
              segment = segment_of l ((l + r) / 2)%float r left_color right_color)
    as Hshape
    by (intros i segment Hi;
        exact (proj2 (gradient_segments_lookup colors segments i segment
                        Hvalid Hsegs Hi))).
  split; [|split; [exact Hsegs|split; [now apply header_lines|]]].
  - exists (map segment_line segments).
    replace (Z.of_nat (length colors - 1)) with (Z.of_nat (length colors) - 1)%Z
      by lia.
    split; [now apply header_lines|]. split; [apply read_int_repr|].
    split; [rewrite length_map; now apply gradient_segments_count|].
    apply Forall_forall. intros line (segment & -> & Hin)%list_elem_of_fmap.
    apply list_elem_of_lookup_1 in Hin as [i Hi].
    destruct (Hshape i segment Hi) as (l & r & ci & cj & lc & rc & H).
    destruct H as (_ & _ & _ & _ & _ & _ & ->). apply segment_of_layout.
  - intros i segment Hi.
    destruct (Hshape i segment Hi) as (l & r & ci & cj & lc & rc & H).
    destruct H as (Hl & Hr & Hci & Hcj & Hlc & Hrc & ->).
    exists l, r, ci, cj, lc, rc. repeat split; try assumption.
    apply segment_line_tokens. now destruct lc as [[? ?] ?], rc as [[? ?] ?].
Qed.

Lemma gradient_file_layout_witness :
  exists text segments,
    create_gimp_gradient "Custom Gradient" ["#ff0000"; "#00ff00"] = Ok text /\
    ggr_layout "Custom Gradient" 1 text /\
    gradient_segments ["#ff0000"; "#00ff00"] = Ok segments.
Proof.
  destruct (gradient_file_layout "Custom Gradient" ["#ff0000"; "#00ff00"])
    as (text & segments & Htext & Hlayout & Hsegs & _).
  - reflexivity.
  - cbn. lia.
  - repeat constructor.
  - exists text, segments. repeat split; assumption.
Defined.

(** ** The matchers *)

Lemma append_assoc s t u : (s +:+ t) +:+ u = s +:+ t +:+ u.
Proof.
  induction s as [|c s IH]; [reflexivity|]. now rewrite !append_cons, IH.
Qed.

Lemma append_nil_r s : s +:+ EmptyString = s.
Proof. induction s as [|c s IH]; [reflexivity|]. now rewrite append_cons, IH. Qed.

Lemma startswith_spec p s :
  Py.startswith p s = true <-> s = p +:+ Py.drop (String.length p) s.
Proof.
  revert s. induction p as [|a p IH]; intros s; cbn [Py.startswith].
  - now rewrite append_nil_l.
  - destruct s as [|b s]; [now split|].
    rewrite append_cons. cbn [String.length Py.drop].
    rewrite andb_true_iff, IH, Ascii.eqb_eq. split.
    + now intros [-> <-].
    + intros [= -> H]. now split.
Qed.

Lemma startswith_append p s : Py.startswith p (p +:+ s) = true.
Proof.
  induction p as [|a p IH]; [reflexivity|]. rewrite append_cons.
  cbn [Py.startswith]. now rewrite Ascii.eqb_refl, IH.
Qed.

Lemma drop_append p s : Py.drop (String.length p) (p +:+ s) = s.
Proof. induction p as [|a p IH]; [reflexivity|]. now rewrite append_cons. Qed.

Section MatcherFacts.
Context {A : Type}.
Implicit Types (k : string -> option A) (kk : string -> string -> option A).

Lemma lit_append text k s : Re.lit text k (text +:+ s) = k s.
Proof. unfold Re.lit. now rewrite startswith_append, drop_append. Qed.

Lemma lit_inv text k s a :
  Re.lit text k s = Some a -> exists rest, s = text +:+ rest /\ k rest = Some a.
Proof.
  unfold Re.lit. destruct (Py.startswith text s) eqn:Hp; [|discriminate].
  apply startswith_spec in Hp. eauto.
Qed.

(** It finds a match whenever some split of the subject has one. *)
Lemma star_complete cls kk m rest :
  Py.all cls m = true -> is_Some (kk m rest) ->
  is_Some (Re.star cls kk (m +:+ rest)).
Proof.
  revert kk. induction m as [|c m IH]; intros kk Hm Hk.
  - rewrite append_nil_l.
    destruct rest as [|c rest]; cbn [Re.star]; [exact Hk|].
    destruct (cls c); [|exact Hk].
    destruct (Re.star cls _ rest); [eauto | exact Hk].
  - rewrite append_cons. cbn [Re.star Py.all] in *.
    apply andb_prop in Hm as [-> Hm].
    destruct (IH (fun m' => kk (String c m')) Hm Hk) as [a ->]. eauto.
Qed.

(** When it finds none after a first character, no split has one. *)
Lemma star_none cls kk c s :
  Re.star cls (fun m => kk (String c m)) s = None ->
  forall m' rest',
    String c s = m' +:+ rest' -> Py.all cls m' = true ->
    0 < String.length m' -> kk m' rest' = None.
Proof.
  intros Hs [|c' m'] rest' Hsplit Hm' Hlen; [cbn in Hlen; lia|].
  rewrite append_cons in Hsplit. injection Hsplit as <- ->.
  cbn [Py.all] in Hm'. apply andb_prop in Hm' as [_ Hm'].
  destruct (kk (String c m') rest') eqn:Hk; [|reflexivity].
  destruct (star_complete cls (fun m => kk (String c m)) m' rest' Hm')
    as [? Hsome]; [eauto | congruence].
Qed.

(** A greedy repetition returns the match of its continuation on the
    longest text it can take. *)
Lemma star_inv cls kk s a :
  Re.star cls kk s = Some a ->
  exists m rest,
    s = m +:+ rest /\ Py.all cls m = true /\ kk m rest = Some a /\
    (forall m' rest',
       s = m' +:+ rest' -> Py.all cls m' = true ->
       String.length m < String.length m' -> kk m' rest' = None).
Proof.
  revert kk. induction s as [|c s IH]; intros kk; cbn [Re.star].
  - intros H. exists EmptyString, EmptyString. repeat split; try assumption.
    intros [|? ?] ? Hsplit _ Hlen; [cbn in Hlen; lia | discriminate Hsplit].
  - destruct (cls c) eqn:Hc.
    + destruct (Re.star cls (fun m => kk (String c m)) s) as [a'|] eqn:Hs.
      * intros [= ->]. apply IH in Hs as (m & rest & -> & Hm & Hk & Hmax).
        exists (String c m), rest. cbn [Py.all]. rewrite Hc, Hm.
        repeat split; try assumption.
        intros [|c' m'] rest' Hsplit Hm' Hlen; [cbn in Hlen; lia|].
        rewrite !append_cons in Hsplit. injection Hsplit as <- Hsplit.
        cbn [Py.all] in Hm'. apply andb_prop in Hm' as [_ Hm'].
        apply (Hmax m' rest' Hsplit Hm'). cbn in Hlen. lia.
      * intros H. exists EmptyString, (String c s).
        repeat split; try assumption. intros m' rest' Hsplit Hm' Hlen.
        now apply (star_none cls kk c s Hs).
    + intros H. exists EmptyString, (String c s).
      repeat split; try assumption.
      intros [|c' m'] rest' Hsplit Hm' Hlen; [cbn in Hlen; lia|].
      rewrite append_cons in Hsplit. injection Hsplit as <- _.
      cbn [Py.all] in Hm'. now rewrite Hc in Hm'.
Qed.

Lemma plus_inv cls kk s a :
  Re.plus cls kk s = Some a ->
  exists m rest,
    s = m +:+ rest /\ m <> EmptyString /\ Py.all cls m = true /\
    kk m rest = Some a /\
    (forall m' rest',
       s = m' +:+ rest' -> Py.all cls m' = true ->
       String.length m < String.length m' -> kk m' rest' = None).
Proof.
  unfold Re.plus. destruct s as [|c s]; [discriminate|].
  destruct (cls c) eqn:Hc; [|discriminate].
  intros (m & rest & -> & Hm & Hk & Hmax)%star_inv.
  exists (String c m), rest. cbn [Py.all]. rewrite Hc, Hm.
  repeat split; try assumption; [discriminate|].
  intros [|c' m'] rest' Hsplit Hm' Hlen; [cbn in Hlen; lia|].
  rewrite !append_cons in Hsplit. injection Hsplit as <- Hsplit.
  cbn [Py.all] in Hm'. apply andb_prop in Hm' as [_ Hm'].
  apply (Hmax m' rest' Hsplit Hm'). cbn in Hlen. lia.
Qed.

Lemma plus_complete cls kk m rest :
  m <> EmptyString -> Py.all cls m = true -> is_Some (kk m rest) ->
  is_Some (Re.plus cls kk (m +:+ rest)).
Proof.
  destruct m as [|c m]; [congruence|]. intros _ Hm Hk.
  rewrite append_cons. cbn [Re.plus Py.all] in *.
  apply andb_prop in Hm as [-> Hm].
  now apply (star_complete cls (fun m' => kk (String c m'))).
Qed.
End MatcherFacts.

(** ** The pattern *)

(** A match of the pattern takes the subject apart, greedily. *)
Lemma linear_gradient_inv s direction colors_str :
  Re.linear_gradient s = Some (direction, colors_str) ->
  greedy_groups s direction colors_str.
Proof.
  unfold Re.linear_gradient.
  intros (s1 & -> & H)%lit_inv.
  apply plus_inv in H as (d & s2 & -> & Hd & Hdc & H & _).
  apply lit_inv in H as (s3 & -> & H).
  apply star_inv in H as (ws & s4 & -> & Hws & H & Hwsmax).
  apply plus_inv in H as (cs & s5 & -> & Hcs & Hcsc & H & Hcsmax).
  apply lit_inv in H as (rest & -> & [= <- <-]).
  exists ws, rest. repeat split; try assumption.
  - intros ws' cs' rest' Hsplit Hws' Hcs' Hcsc'.
    apply Nat.nlt_ge. intros Hlen.
    specialize (Hwsmax ws' _ Hsplit Hws' Hlen).
    destruct (plus_complete Re.dot
                (fun colors_str =>
                   Re.lit ")" (fun _ => Some (d, colors_str)))
                cs' (")" +:+ rest') Hcs' Hcsc') as [? Hsome];
      [rewrite lit_append; eauto | congruence].
  - intros cs' rest' Hsplit Hcsc'. apply Nat.nlt_ge. intros Hlen.
    specialize (Hcsmax cs' _ Hsplit Hcsc' Hlen).
    now rewrite lit_append in Hcsmax.
Qed.

Lemma greedy_groups_shape s direction colors_str :
  greedy_groups s direction colors_str -> gradient_shape s.
Proof.
  intros (ws & rest & H & Hd & Hdc & Hws & Hcs & Hcsc & _).
  now exists direction, ws, colors_str, rest.
Qed.

(** The pattern matches exactly the subjects of the general shape. *)
Lemma linear_gradient_shape s :
  is_Some (Re.linear_gradient s) <-> gradient_shape s.
Proof.
  split.
  - intros [[d cs] H]. eapply greedy_groups_shape, linear_gradient_inv, H.
  - intros (d & ws & cs & rest & -> & Hd & Hdc & Hws & Hcs & Hcsc).
    unfold Re.linear_gradient. rewrite lit_append.
    apply plus_complete; [assumption..|]. rewrite lit_append.
    apply star_complete; [assumption|].
    apply plus_complete; [assumption..|]. rewrite lit_append. eauto.
Qed.

(** ** Substrings, pieces and trimming *)

Lemma contains_spec needle hay :
  Py.contains needle hay = true <-> substring needle hay.
Proof.
  unfold substring. induction hay as [|c hay IH]; cbn [Py.contains].
  - rewrite orb_false_r, startswith_spec. split.
    + intros H. exists EmptyString. eauto.
    + intros ([|? ?] & after & H); [|discriminate H].
      rewrite append_nil_l in H. destruct needle; [reflexivity | discriminate H].
  - rewrite orb_true_iff, IH, startswith_spec. split.
    + intros [H | (before & after & ->)].
      * exists EmptyString. eauto.
      * now exists (String c before), after.
    + intros ([|c' before] & after & H).
      * left. rewrite append_nil_l in H. rewrite H.
        now rewrite drop_append.
      * right. rewrite append_cons in H. injection H as -> ->. eauto.
Qed.

Lemma cut_at_append ch before after :
  no_char ch before = true ->
  cut_at ch (before +:+ String ch after) = Some (before, after).
Proof.
  unfold no_char. induction before as [|c before IH]; intros H.
  - rewrite append_nil_l. cbn [cut_at]. now rewrite Ascii.eqb_refl.
  - rewrite append_cons. cbn [cut_at Py.all] in *.
    apply andb_prop in H as [Hc H]. apply negb_true_iff in Hc.
    now rewrite Hc, IH.
Qed.

Lemma append_inv_head text s t : text +:+ s = text +:+ t -> s = t.
Proof.
  induction text as [|c text IH]; [now rewrite !append_nil_l|].
  rewrite !append_cons. intros [= H]. auto.
Qed.

Lemma append_inj_length a b a' b' :
  a +:+ b = a' +:+ b' -> String.length a = String.length a' ->
  a = a' /\ b = b'.
Proof.
  revert a'. induction a as [|c a IH]; intros [|c' a'] H Hlen;
    try discriminate Hlen.
  - now rewrite !append_nil_l in H.
  - rewrite !append_cons in H. injection H as -> H. injection Hlen as Hlen.
    destruct (IH a' H Hlen) as [-> ->]. now split.
Qed.

Lemma cut_at_inj ch a x a' x' :
  no_char ch a = true -> no_char ch a' = true ->
  a +:+ String ch x = a' +:+ String ch x' -> a = a' /\ x = x'.
Proof.
  intros Ha Ha' H.
  pose proof (cut_at_append ch a x Ha) as H1.
  rewrite H, (cut_at_append ch a' x' Ha') in H1.
  injection H1 as -> ->. now split.
Qed.

(** The first group of a match is the direction clause. *)
Lemma greedy_groups_direction s direction colors_str :
  greedy_groups s direction colors_str ->
  direction_clause s = Some direction.
Proof.
  intros (ws & rest & -> & _ & Hd & _).
  unfold direction_clause.
  change (cut_at "(" ("linear-gradient(" +:+ ?t))
    with (cut_at "(" ("linear-gradient" +:+ String "(" t)).
  rewrite cut_at_append by reflexivity.
  change ("," +:+ ?t) with (String "," t).
  now rewrite cut_at_append.
Qed.

(** The greedy way to take a subject apart is unique. *)
Lemma greedy_groups_unique s d1 cs1 d2 cs2 :
  greedy_groups s d1 cs1 -> greedy_groups s d2 cs2 -> d1 = d2 /\ cs1 = cs2.
Proof.
  intros (ws1 & rest1 & -> & _ & Hd1 & Hws1 & Hcs1 & Hcsc1 & Hwmax1 & Hcmax1)
         (ws2 & rest2 & H & _ & Hd2 & Hws2 & Hcs2 & Hcsc2 & Hwmax2 & Hcmax2).
  apply append_inv_head in H.
  change ("," +:+ ?t) with (String "," t) in H.
  apply cut_at_inj in H as [-> H]; [|assumption..].
  split; [reflexivity|].
  pose proof (Hwmax1 ws2 cs2 rest2 H Hws2 Hcs2 Hcsc2).
  pose proof (Hwmax2 ws1 cs1 rest1 (eq_sym H) Hws1 Hcs1 Hcsc1).
  apply append_inj_length in H as [-> H]; [|lia].
  pose proof (Hcmax1 cs2 rest2 H Hcsc2).
  pose proof (Hcmax2 cs1 rest1 (eq_sym H) Hcsc1).
  apply append_inj_length in H as [-> _]; [reflexivity | lia].
Qed.

(** The matcher computes the greedy groups, and only them. *)
Lemma linear_gradient_greedy s direction colors_str :
  Re.linear_gradient s = Some (direction, colors_str)
  <-> greedy_groups s direction colors_str.
Proof.
  split; [apply linear_gradient_inv|]. intros Hg.
  destruct (proj2 (linear_gradient_shape s) (greedy_groups_shape _ _ _ Hg))
    as [[d cs] Hm].
  destruct (greedy_groups_unique s d cs direction colors_str
              (linear_gradient_inv _ _ _ Hm) Hg) as [-> ->].
  exact Hm.
Qed.

Lemma split_nonempty sep s : Py.split sep s <> [].
Proof.
  destruct s as [|c s]; cbn [Py.split]; [discriminate|].
  destruct (Ascii.eqb c sep); [discriminate|].
  destruct (Py.split sep s); discriminate.
Qed.

Lemma join_cons sep piece pieces :
  pieces <> [] ->
  Py.join sep (piece :: pieces) = piece +:+ sep +:+ Py.join sep pieces.
Proof. destruct pieces; [congruence | reflexivity]. Qed.

(** Joining undoes splitting, and no piece holds the separator. *)
Lemma join_split sep s :
  Py.join (String sep EmptyString) (Py.split sep s) = s.
Proof.
  induction s as [|c s IH]; [reflexivity|]. cbn [Py.split].
  destruct (Ascii.eqb_spec c sep) as [->|Hne].
  - rewrite join_cons by apply split_nonempty.
    now rewrite IH, append_nil_l, append_cons, append_nil_l.
  - pose proof (split_nonempty sep s) as Hs.
    destruct (Py.split sep s) as [|piece pieces]; [congruence|].
    destruct pieces as [|next pieces].
    + cbn [Py.join] in *. now rewrite IH.
    + rewrite join_cons in * by discriminate.
      now rewrite append_cons, IH.
Qed.

Lemma split_pieces sep s :
  Forall (fun piece => no_char sep piece = true) (Py.split sep s).
Proof.
  induction s as [|c s IH]; cbn [Py.split]; [now repeat constructor|].
  destruct (Ascii.eqb c sep) eqn:Hc; [now constructor|].
  destruct (Py.split sep s) as [|piece pieces]; [|inversion IH; subst];
    constructor; unfold no_char in *; cbn [Py.all]; rewrite ?Hc; auto.
Qed.

Lemma lstrip_spec p s :
  exists ws,
    s = ws +:+ Py.lstrip_class p s /\ Py.all p ws = true /\
    match Py.lstrip_class p s with
    | String c _ => p c = false
    | EmptyString => True
    end.
Proof.
  induction s as [|c s (ws & Hs & Hws & Hhd)]; cbn [Py.lstrip_class].
  - now exists EmptyString.
  - destruct (p c) eqn:Hc.
    + exists (String c ws). rewrite append_cons, <- Hs. cbn [Py.all].
      now rewrite Hc, Hws.
    + now exists EmptyString.
Qed.

Lemma rstrip_cons p c s :
  Py.rstrip_class p (String c s)
  = match Py.rstrip_class p s with
    | EmptyString => if p c then EmptyString else String c EmptyString
    | r => String c r
    end.
Proof. reflexivity. Qed.

Lemma rstrip_spec p s :
  exists ws,
    s = Py.rstrip_class p s +:+ ws /\ Py.all p ws = true /\
    Py.rstrip_class p (Py.rstrip_class p s) = Py.rstrip_class p s.
Proof.
  induction s as [|c s (ws & Hs & Hws & Hidem)]; cbn [Py.rstrip_class].
  - now exists EmptyString.
  - destruct (Py.rstrip_class p s) as [|c' r] eqn:Hr.
    + rewrite append_nil_l in Hs. subst ws. destruct (p c) eqn:Hc.
      * exists (String c s). cbn [Py.all]. now rewrite Hc, Hws.
      * exists s. cbn [Py.rstrip_class]. now rewrite Hc.
    + exists ws. rewrite append_cons, <- Hs. repeat split; [assumption|].
      rewrite (rstrip_cons p c (String c' r)). now rewrite Hidem.
Qed.

Lemma rstrip_head p s :
  match s with
  | String c _ => p c = false
  | EmptyString => True
  end ->
  Py.lstrip_class p (Py.rstrip_class p s) = Py.rstrip_class p s.
Proof.
  destruct s as [|c s]; [reflexivity|]. intros Hc. cbn [Py.rstrip_class].
  destruct (Py.rstrip_class p s); rewrite ?Hc; cbn [Py.lstrip_class];
    now rewrite Hc.
Qed.

(** [strip] removes the whitespace around a piece and nothing else. *)
Lemma strip_trimmed piece : trimmed_of piece (Py.strip piece).
Proof.
  unfold trimmed_of, Py.strip.
  destruct (lstrip_spec Py.is_space piece) as (ws1 & H1 & Hws1 & Hhd).
  destruct (rstrip_spec Py.is_space (Py.lstrip_class Py.is_space piece))
    as (ws2 & H2 & Hws2 & Hidem).
  exists ws1, ws2. repeat split; try assumption.
  - now rewrite <- H2.
  - now apply rstrip_head.
Qed.

(** ** [parse_css_gradient] *)

Lemma parse_css_gradient_eq s direction colors_str :
  Re.linear_gradient s = Some (direction, colors_str) ->
  parse_css_gradient s
  = if Py.contains "to right" direction
    then Ok (map Py.strip (Py.split "," colors_str))
    else Raise UnsupportedDirectionError.
Proof.
  intros H. unfold parse_css_gradient. rewrite H.
  now destruct (Py.contains "to right" direction).
Qed.

(** The counterexample to C7 as stated: the direction clause of
    ["linear-gradient(to left,)"] is ["to left"], without ["to right"], and
    the error raised is the format error. *)
Lemma format_error_hides_direction :
  direction_clause "linear-gradient(to left,)" = Some "to left" /\
  Py.contains "to right" "to left" = false /\
  parse_css_gradient "linear-gradient(to left,)" = Raise FormatError /\
  parse_css_gradient "linear-gradient(to left,)"
  <> Raise UnsupportedDirectionError.
Proof. repeat split; try (vm_compute; reflexivity). vm_compute. discriminate. Qed.

(** C7, amended: on an input of the general shape, the unsupported-direction
    error is raised if and only if ["to right"] does not occur in the
    direction clause, the text between the opening parenthesis and the first
    comma; ["to left"] raises it and ["to right top"] is accepted. *)
Theorem unsupported_direction_iff :
  (forall s,
     gradient_shape s ->
     exists direction,
       direction_clause s = Some direction /\
       (parse_css_gradient s = Raise UnsupportedDirectionError
        <-> ~ substring "to right" direction)) /\
  parse_css_gradient "linear-gradient(to left, #fff, #000)"
  = Raise UnsupportedDirectionError /\
  parse_css_gradient "linear-gradient(to right top, #fff, #000)"
  = Ok ["#fff"; "#000"].
Proof.
  split; [|split; vm_compute; reflexivity].
  intros s [[direction colors_str] Hm]%linear_gradient_shape.
  exists direction.
  split; [eapply greedy_groups_direction, linear_gradient_inv, Hm|].
  rewrite (parse_css_gradient_eq _ _ _ Hm), <- contains_spec.
  destruct (Py.contains "to right" direction); split;
    try discriminate; try congruence; try reflexivity.
Qed.

Lemma unsupported_direction_iff_witness :
  exists direction,
    direction_clause "linear-gradient(to top, #fff, #000)" = Some direction /\
    (parse_css_gradient "linear-gradient(to top, #fff, #000)"
     = Raise UnsupportedDirectionError
     <-> ~ substring "to right" direction).
Proof.
  apply (proj1 unsupported_direction_iff).
  apply linear_gradient_shape. vm_compute. eauto.
Defined.

(** The counterexample to C8 as stated: an input of the general shape on
    which the parser does not succeed. *)
Lemma shape_does_not_ensure_success :
  gradient_shape "linear-gradient(to left, #fff, #000)" /\
  parse_css_gradient "linear-gradient(to left, #fff, #000)"
  = Raise UnsupportedDirectionError.
Proof.
  split; [|vm_compute; reflexivity].
  apply linear_gradient_shape. vm_compute. eauto.
Qed.

(** C8, amended: the format error is raised exactly on the inputs that are
    not of the general shape; on an input of that shape the parser raises
    the unsupported-direction error when the direction lacks ["to right"],
    and otherwise returns the pieces of the colour text between its commas,
    in order, each without the whitespace around it. *)
Theorem parse_css_gradient_cases s :
  (parse_css_gradient s = Raise FormatError <-> ~ gradient_shape s) /\
  (gradient_shape s ->
   exists direction colors_str,
     greedy_groups s direction colors_str /\
     if Py.contains "to right" direction then
       exists pieces,
         Py.join "," pieces = colors_str /\
         Forall (fun piece => no_char "," piece = true) pieces /\
         parse_css_gradient s = Ok (map Py.strip pieces) /\
         Forall2 trimmed_of pieces (map Py.strip pieces)
     else parse_css_gradient s = Raise UnsupportedDirectionError).
Proof.
  rewrite <- linear_gradient_shape. split.
  - unfold parse_css_gradient.
    destruct (Re.linear_gradient s) as [[direction colors_str]|].
    + split; [|intros []; eauto].
      destruct (Py.contains "to right" direction); discriminate.
    + split; [intros _ [? [=]] | reflexivity].
  - intros [[direction colors_str] Hm]. exists direction, colors_str.
    split; [now apply linear_gradient_inv|].
    rewrite (parse_css_gradient_eq _ _ _ Hm).
    destruct (Py.contains "to right" direction); [|reflexivity].
    exists (Py.split "," colors_str).
    split; [apply join_split|]. split; [apply split_pieces|].
    split; [reflexivity|].
    apply Forall2_fmap_r, Forall_Forall2_diag, Forall_forall.
    intros piece _. apply strip_trimmed.
Qed.

Lemma parse_css_gradient_cases_witness :
  exists direction colors_str,
    greedy_groups "linear-gradient(to right, #fbb040, #fdb453)"
      direction colors_str /\
    if Py.contains "to right" direction then
      exists pieces,
        Py.join "," pieces = colors_str /\
        Forall (fun piece => no_char "," piece = true) pieces /\
        parse_css_gradient "linear-gradient(to right, #fbb040, #fdb453)"
        = Ok (map Py.strip pieces) /\
        Forall2 trimmed_of pieces (map Py.strip pieces)
    else parse_css_gradient "linear-gradient(to right, #fbb040, #fdb453)"
         = Raise UnsupportedDirectionError.
Proof.
  apply (proj2 (parse_css_gradient_cases
                  "linear-gradient(to right, #fbb040, #fdb453)")).
  apply linear_gradient_shape. vm_compute. eauto.
Defined.

(** ** [main] *)

(** The run of [main], stage by stage. *)
Lemma main_eq env args w :
  main env args w
  = match parse_css_gradient (css_gradient args) with
    | Raise e => (Raise e, w)
    | Ok colors =>
        match create_gimp_gradient (name args) colors with
        | Raise e => (Raise e, w)
        | Ok text => save env text (gradient_file env args) w
        end
    end.
Proof.
  unfold main, save, gradient_file, saved_line, pure.
  unfold mbind at 1 2. unfold io_bind at 1 2.
  destruct (parse_css_gradient _) as [colors|e]; [|reflexivity].
  destruct (create_gimp_gradient _ _) as [text|e]; reflexivity.
Qed.









(** The errors of the parser are its own two. *)
Lemma parse_css_gradient_raises s e :
  parse_css_gradient s = Raise e ->
  e = FormatError \/ e = UnsupportedDirectionError.
Proof.
  unfold parse_css_gradient.
  destruct (Re.linear_gradient s) as [[direction colors_str]|];
    [destruct (negb _)|]; intros [= <-]; auto.
Qed.

Lemma build_segments_raises colors num_segments indices acc e :
  build_segments colors num_segments indices acc = Raise e ->
  exists i, In i indices /\ segment_at colors num_segments i = Raise e.
Proof.
  revert acc. induction indices as [|i rest IH]; intros acc; cbn;
    [discriminate|].
  destruct (segment_at colors num_segments i) as [segment|e'] eqn:Hseg; cbn.
  - intros (k & Hk & He)%IH. eauto.
  - intros [= <-]. eauto.
Qed.

(** Within the loop the only error is that of a colour that does not
    convert: no index is out of range and no division is by zero. *)
Lemma segment_at_raises colors i e :
  (0 <= i < Z.of_nat (length colors) - 1)%Z ->
  segment_at colors (Z.of_nat (length colors) - 1) i = Raise e ->
  exists lit, e = InvalidLiteral lit.
Proof.
  intros Hi. unfold segment_at.
  destruct (lookup_lt_is_Some_2 colors (Z.to_nat i)) as [ci Hci]; [lia|].
  destruct (lookup_lt_is_Some_2 colors (Z.to_nat (i + 1))) as [cj Hcj]; [lia|].
  rewrite (getitem_lookup colors i ci) by (lia || assumption). cbn.
  destruct (hex_to_rgb ci) as [left_color|e1] eqn:Hl; cbn;
    [|intros [= <-]; eauto using hex_to_rgb_raises].
  rewrite (getitem_lookup colors (i + 1) cj) by (lia || assumption). cbn.
  destruct (hex_to_rgb cj) as [right_color|e2] eqn:Hr; cbn;
    [|intros [= <-]; eauto using hex_to_rgb_raises].
  rewrite !int_truediv_ok by lia. discriminate.
Qed.

Lemma create_gimp_gradient_raises name colors e :
  create_gimp_gradient name colors = Raise e ->
  exists lit, e = InvalidLiteral lit.
Proof.
  unfold create_gimp_gradient, gradient_segments.
  destruct (build_segments _ _ _ _) as [segments|e'] eqn:Hb; [discriminate|].
  intros [= <-].
  apply build_segments_raises in Hb as (i & Hi%range_elem & Hseg).
  eapply segment_at_raises; eassumption.
Qed.

(** C9: when parsing or the construction of the gradient raises, [main]
    raises the same error and the world is as it was: nothing is written,
    nothing is printed.  The file is written, or its opening fails, only
    after both stages have returned. *)
Theorem no_write_on_error env args w :
  (forall e,
     parse_css_gradient (css_gradient args) = Raise e ->
     main env args w = (Raise e, w)) /\
  (forall colors e,
     parse_css_gradient (css_gradient args) = Ok colors ->
     create_gimp_gradient (name args) colors = Raise e ->
     main env args w = (Raise e, w)) /\
  (forall r w',
     main env args w = (r, w') ->
     w' <> w \/ (exists path, r = Raise (OSError path)) ->
     exists colors text,
       parse_css_gradient (css_gradient args) = Ok colors /\
       create_gimp_gradient (name args) colors = Ok text).
Proof.
  rewrite main_eq. split; [|split].
  - now intros e ->.
  - now intros colors e -> ->.
  - intros r w'.
    destruct (parse_css_gradient _) as [colors|e] eqn:Hparse.
    + destruct (create_gimp_gradient _ _) as [text|e] eqn:Hcreate; [eauto|].
      intros [= <- <-] [H | [path [= ->]]]; [congruence|].
      apply create_gimp_gradient_raises in Hcreate as [lit [=]].
    + intros [= <- <-] [H | [path [= ->]]]; [congruence|].
      apply parse_css_gradient_raises in Hparse as [[=] | [=]].
Qed.

Lemma no_write_on_error_witness :
  let env := plain_environ in
  let args := {| css_gradient := "linear-gradient(to right, #xyz123, #000000)";
                 name := "Custom Gradient"; output := "/tmp" |} in
  let w := {| files := ∅; events := [] |} in
  main env args w = (Raise (InvalidLiteral "xy"), w).
Proof.
  cbv zeta.
  apply (proj1 (proj2 (no_write_on_error _ _ _)) ["#xyz123"; "#000000"]).
  - vm_compute. reflexivity.
  - vm_compute. reflexivity.
Defined.

(** ** The examples of the specification *)

(** Two colours: one segment from 0 over 0.5 to 1, red to green. *)
Example red_to_green :
  gradient_segments ["#ff0000"; "#00ff00"]
  = Ok [[VFloat 0; VFloat 0.5; VFloat 1;
         VFloat 1; VFloat 0; VFloat 0; VFloat 1;
         VFloat 0; VFloat 1; VFloat 0; VFloat 1;
         VInt 0; VInt 0; VInt 0; VInt 0]].
Proof. vm_compute. reflexivity. Qed.

(** Three colours: two segments with the boundaries 0, 0.5 and 1. *)
Example three_stops :
  (colors ← parse_css_gradient
              "linear-gradient(to right, #fbb040, #fdb453, #ffb865)";
   segments ← gradient_segments colors;
   mret (map (fun segment => (left_endpoint segment, right_endpoint segment))
           segments))
  = Ok [(Some (VFloat 0), Some (VFloat 0.5));
        (Some (VFloat 0.5), Some (VFloat 1))].
Proof. vm_compute. reflexivity. Qed.

(** The text written for the two-colour gradient. *)
Example red_to_green_text :
  create_gimp_gradient "Custom Gradient" ["#ff0000"; "#00ff00"]
  = Ok (Py.join LF
          ["GIMP Gradient"; "Name: Custom Gradient"; "1";
           "0.0 0.5 1.0 1.0 0.0 0.0 1.0 0.0 1.0 0.0 1.0 0 0 0 0"]).
Proof. vm_compute. reflexivity. Qed.

(** A run of [main] on the example of the docstring. *)
Example main_run :
  let env :=
    {| expanduser := fun path =>
                       if Py.startswith "~/" path
                       then "/home/user" +:+ Py.drop 1 path else path;
       file_of := fun path => path;
       open_error := fun _ _ => None;
       write_error := fun _ _ _ => None;
       print_error := fun _ _ => None |} in
  let args :=
    {| css_gradient := "linear-gradient(to right, #fbb040, #fdb453)";
       name := default_name; output := default_output |} in
  let path :=
    "/home/user/Library/Application Support/GIMP/2.10/gradients/Custom Gradient.ggr" in
  exists text w',
    main env args {| files := ∅; events := [] |} = (Ok tt, w') /\
    files w' !! path = Some text /\
    events w'
    = [Opened path; Wrote path text;
       Printed ("GIMP gradient saved to: " +:+ path)] /\
    lines text
    = ["GIMP Gradient"; "Name: Custom Gradient"; "1";
       "0.0 0.5 1.0 0.984313725490196 0.6901960784313725 0.25098039215686274 1.0 0.9921568627450981 0.7058823529411765 0.3254901960784314 1.0 0 0 0 0"].
Proof.
  cbv zeta. eexists _, _. split; [rewrite main_eq; vm_compute; reflexivity|].
  repeat split; vm_compute; reflexivity.
Qed.

(** A run in which the write fails: the file that was there is emptied. *)
Example write_fails_after_open :
  let env :=
    {| expanduser := fun path => path;
       file_of := fun path => path;
       open_error := fun _ _ => None;
       write_error := fun _ path _ => Some (0, OSError path);
       print_error := fun _ _ => None |} in
  let args :=
    {| css_gradient := "linear-gradient(to right, #fbb040, #fdb453)";
       name := default_name; output := "/tmp" |} in
  let path := "/tmp/Custom Gradient.ggr" in
  exists w',
    main env args {| files := {[ path := "GIMP Gradient" ]}; events := [] |}
    = (Raise (OSError path), w') /\
    files w' !! path = Some EmptyString /\
    events w' = [Opened path].
Proof.
  cbv zeta. eexists. split; [rewrite main_eq; vm_compute; reflexivity|].
  split; vm_compute; reflexivity.
Qed.

(** A run in which [print] fails: the error comes after the file was
    written, under a second path to the same file. *)
Example print_fails_after_write :
  let env :=
    {| expanduser := fun path => path;
       file_of := fun path =>
                    if Py.startswith "/tmp/" path
                    then "/private" +:+ path else path;
       open_error := fun _ _ => None;
       write_error := fun _ _ _ => None;
       print_error := fun _ _ => Some (OSError "<stdout>") |} in
  let args :=
    {| css_gradient := "linear-gradient(to right, #ff0000, #00ff00)";
       name := default_name; output := "/tmp" |} in
  exists text w',
    main env args {| files := ∅; events := [] |}
    = (Raise (OSError "<stdout>"), w') /\
    create_gimp_gradient default_name ["#ff0000"; "#00ff00"] = Ok text /\
    files w' !! "/private/tmp/Custom Gradient.ggr" = Some text /\
    events w'
    = [Opened "/tmp/Custom Gradient.ggr"; Wrote "/tmp/Custom Gradient.ggr" text].
Proof.
  cbv zeta. eexists _, _. split; [rewrite main_eq; vm_compute; reflexivity|].
  repeat split; vm_compute; reflexivity.
Qed.

(** * Further properties *)

(** ** The loop of [create_gimp_gradient] *)

Lemma getitem_inv {A} (l : list A) (i : Z) x :
  (0 <= i)%Z -> Py.getitem l i = Ok x -> l !! Z.to_nat i = Some x.
Proof.
  intros Hi. unfold Py.getitem.
  rewrite (proj2 (Z.ltb_ge i 0)) by lia.
  rewrite (proj2 (Z.ltb_ge i 0)) by lia.
  destruct (l !! Z.to_nat i); [now intros [= ->] | discriminate].
Qed.

(** What a run of the loop body that returns has read and built. *)
Lemma segment_at_inv colors num_segments i segment :
  (0 <= i)%Z ->
  segment_at colors num_segments i = Ok segment ->
  exists color_i color_i1 left right l r,
    colors !! Z.to_nat i = Some color_i /\
    colors !! S (Z.to_nat i) = Some color_i1 /\
    hex_to_rgb color_i = Ok left /\ hex_to_rgb color_i1 = Ok right /\
    Py.int_truediv i num_segments = Ok l /\
    Py.int_truediv (i + 1) num_segments = Ok r /\
    segment = segment_of l ((l + r) / 2)%float r left right.
Proof.
  intros Hi. unfold segment_at.
  destruct (Py.getitem colors i) as [ci|] eqn:Hci; [cbn|discriminate].
  destruct (hex_to_rgb ci) as [left|] eqn:Hl; [cbn|discriminate].
  destruct (Py.getitem colors (i + 1)) as [cj|] eqn:Hcj; [cbn|discriminate].
  destruct (hex_to_rgb cj) as [right|] eqn:Hr; [cbn|discriminate].
  destruct (Py.int_truediv i num_segments) as [l|] eqn:Hdl; [cbn|discriminate].
  destruct (Py.int_truediv (i + 1) num_segments) as [r|] eqn:Hdr;
    [cbn|discriminate].
  intros [= <-]. apply getitem_inv in Hci, Hcj; try lia.
  replace (Z.to_nat (i + 1)) with (S (Z.to_nat i)) in Hcj by lia.
  exists ci, cj, left, right, l, r. repeat split; assumption.
Qed.

(** The loop body returns as soon as its two colours convert. *)
Lemma segment_at_local colors i color_i color_i1 :
  colors !! Z.to_nat i = Some color_i ->
  colors !! S (Z.to_nat i) = Some color_i1 ->
  (0 <= i)%Z ->
  is_ok (hex_to_rgb color_i) = true -> is_ok (hex_to_rgb color_i1) = true ->
  is_ok (segment_at colors (Z.of_nat (length colors) - 1) i) = true.
Proof.
  intros Hci Hcj Hi Hoki Hokj.
  pose proof (lookup_lt_Some _ _ _ Hcj) as Hlt.
  unfold segment_at.
  rewrite (getitem_lookup colors i color_i) by (lia || assumption). cbn.
  destruct (hex_to_rgb color_i); [cbn|discriminate].
  rewrite (getitem_lookup colors (i + 1) color_i1)
    by (lia || now replace (Z.to_nat (i + 1)) with (S (Z.to_nat i)) by lia).
  cbn. destruct (hex_to_rgb color_i1); [cbn|discriminate].
  rewrite !int_truediv_ok by lia. reflexivity.
Qed.

Lemma build_segments_app colors num_segments xs ys acc :
  build_segments colors num_segments (xs ++ ys) acc
  = (segments ← build_segments colors num_segments xs acc;
     build_segments colors num_segments ys segments).
Proof.
  revert acc. induction xs as [|i xs IH]; intros acc; cbn; [reflexivity|].
  destruct (segment_at colors num_segments i); cbn; [apply IH | reflexivity].
Qed.

(** The segments the loop has returned, read back one by one. *)
Lemma gradient_segments_inv colors segments i segment :
  gradient_segments colors = Ok segments ->
  segments !! i = Some segment ->
  exists color_i color_i1 left right l r,
    colors !! i = Some color_i /\ colors !! S i = Some color_i1 /\
    hex_to_rgb color_i = Ok left /\ hex_to_rgb color_i1 = Ok right /\
    segment = segment_of l ((l + r) / 2)%float r left right.
Proof.
  intros Hsegs Hi.
  apply build_segments_spec in Hsegs as (news & -> & Hall). cbn in Hi.
  destruct (Forall2_lookup_r _ _ _ _ _ Hall Hi) as (k & Hk & Hseg).
  pose proof (lookup_lt_Some _ _ _ Hk) as Hlt. rewrite range_length in Hlt.
  assert (k = Z.of_nat i) as ->.
  { rewrite <- (Nat2Z.id i) in Hk. rewrite range_lookup in Hk by lia.
    congruence. }
  apply segment_at_inv in Hseg as (ci & cj & lc & rc & l & r & H); [|lia].
  rewrite Nat2Z.id in H. destruct H as (? & ? & ? & ? & _ & _ & ?).
  exists ci, cj, lc, rc, l, r. repeat split; assumption.
Qed.

Lemma segment_of_colors l m r left right :
  left_color (segment_of l m r left right) = color_values left /\
  right_color (segment_of l m r left right) = color_values right.
Proof. destruct left as [[? ?] ?], right as [[? ?] ?]. now cbn. Qed.

(** X1: the colours of a gradient are continuous.  Segment [i] holds the
    colour of [colors[i]] at its left end and that of [colors[i+1]] at its
    right end, so each segment starts in the colour the one before it ends
    in. *)
Theorem segment_colors_continuous colors segments :
  gradient_segments colors = Ok segments ->
  (forall i segment,
     segments !! i = Some segment ->
     exists color_i color_i1 left right,
       colors !! i = Some color_i /\ colors !! S i = Some color_i1 /\
       hex_to_rgb color_i = Ok left /\ hex_to_rgb color_i1 = Ok right /\
       left_color segment = color_values left /\
       right_color segment = color_values right) /\
  (forall i segment next,
     segments !! i = Some segment -> segments !! S i = Some next ->
     right_color segment = left_color next).
Proof.
  intros Hsegs. split.
  - intros i segment Hi.
    destruct (gradient_segments_inv colors segments i segment Hsegs Hi)
      as (ci & cj & lc & rc & l & r & Hci & Hcj & Hlc & Hrc & ->).
    exists ci, cj, lc, rc.
    pose proof (segment_of_colors l ((l + r) / 2)%float r lc rc). tauto.
  - intros i segment next Hi Hnext.
    destruct (gradient_segments_inv colors segments i segment Hsegs Hi)
      as (ci & cj & lc & rc & l & r & _ & Hcj & _ & Hrc & ->).
    destruct (gradient_segments_inv colors segments (S i) next Hsegs Hnext)
      as (ci' & cj' & lc' & rc' & l' & r' & Hci' & _ & Hlc' & _ & ->).
    rewrite (proj2 (segment_of_colors _ _ _ _ _)),
      (proj1 (segment_of_colors _ _ _ _ _)).
    congruence.
Qed.

Lemma segment_colors_continuous_witness :
  gradient_segments ["#ff0000"; "#00ff00"; "#0000ff"]
  = Ok [segment_of 0 0.25 0.5 (1, 0, 0)%float (0, 1, 0)%float;
        segment_of 0.5 0.75 1 (0, 1, 0)%float (0, 0, 1)%float] /\
  right_color (segment_of 0 0.25 0.5 (1, 0, 0)%float (0, 1, 0)%float)
  = left_color (segment_of 0.5 0.75 1 (0, 1, 0)%float (0, 0, 1)%float).
Proof.
  split; [vm_compute; reflexivity|].
  exact (proj2 (segment_colors_continuous ["#ff0000"; "#00ff00"; "#0000ff"] _
                  ltac:(vm_compute; reflexivity)) 0 _ _ eq_refl eq_refl).
Defined.

(** On fewer than two colours the loop has no index and converts nothing. *)
Lemma gradient_segments_short colors :
  length colors < 2 -> gradient_segments colors = Ok [].
Proof.
  intros Hlen. unfold gradient_segments, Py.range.
  replace (Z.to_nat (Z.of_nat (length colors) - 1)) with 0 by lia.
  reflexivity.
Qed.

(** When the loop returns on two colours or more, every colour converts. *)
Lemma gradient_segments_ok_valid colors segments :
  2 <= length colors ->
  gradient_segments colors = Ok segments -> valid_colors colors.
Proof.
  intros Hlen Hsegs. pose proof (gradient_segments_count _ _ Hsegs) as Hcount.
  apply Forall_forall. intros color [k Hk]%list_elem_of_lookup_1.
  pose proof (lookup_lt_Some _ _ _ Hk) as Hlt.
  destruct (decide (k < length colors - 1)) as [Hin|Hlast].
  - destruct (lookup_lt_is_Some_2 segments k) as [segment Hseg]; [lia|].
    destruct (gradient_segments_inv colors segments k segment Hsegs Hseg)
      as (ci & _ & lc & _ & _ & _ & Hci & _ & Hlc & _).
    assert (ci = color) as -> by congruence. now rewrite Hlc.
  - destruct (lookup_lt_is_Some_2 segments (k - 1)) as [segment Hseg]; [lia|].
    destruct (gradient_segments_inv colors segments (k - 1) segment Hsegs Hseg)
      as (_ & cj & _ & rc & _ & _ & _ & Hcj & _ & Hrc & _).
    replace (S (k - 1)) with k in Hcj by lia.
    assert (cj = color) as -> by congruence. now rewrite Hrc.
Qed.

(** X2: [create_gimp_gradient] returns exactly when the list has fewer than
    two colours or every colour converts.  On fewer than two colours it
    converts none and returns the header alone, with the count line
    [len(colors) - 1]: [0] for one colour and [-1] for the empty list. *)
Theorem create_gimp_gradient_returns_iff name colors :
  (is_ok (create_gimp_gradient name colors) = true
   <-> length colors < 2 \/ valid_colors colors) /\
  (length colors < 2 ->
   create_gimp_gradient name colors
   = Ok (Py.join LF ["GIMP Gradient"; "Name: " +:+ name;
                     Py.int_repr (Z.of_nat (length colors) - 1)])) /\
  create_gimp_gradient name []
  = Ok (Py.join LF ["GIMP Gradient"; "Name: " +:+ name; "-1"]).
Proof.
  split; [|split; [|reflexivity]].
  - split.
    + intros Hok. destruct (decide (length colors < 2)) as [|Hlen]; [now left|].
      right. unfold create_gimp_gradient in Hok.
      destruct (gradient_segments colors) as [segments|] eqn:Hsegs;
        [|discriminate Hok].
      apply (gradient_segments_ok_valid colors segments); [lia | exact Hsegs].
    + intros [Hlen | Hvalid].
      * unfold create_gimp_gradient.
        now rewrite gradient_segments_short.
      * destruct (gradient_segments_valid colors Hvalid) as (segments & Hsegs & _).
        unfold create_gimp_gradient. now rewrite Hsegs.
  - intros Hlen. unfold create_gimp_gradient.
    now rewrite gradient_segments_short.
Qed.

Lemma create_gimp_gradient_returns_iff_witness :
  create_gimp_gradient "G" ["not a colour"]
  = Ok (Py.join LF ["GIMP Gradient"; "Name: G"; "0"]).
Proof.
  exact (proj1 (proj2 (create_gimp_gradient_returns_iff "G" ["not a colour"]))
           ltac:(cbn; lia)).
Defined.

(** X3: on two colours or more, the error of [create_gimp_gradient] is the
    error of the first colour of the list that does not convert. *)
Theorem create_gimp_gradient_first_invalid name good bad rest e :
  valid_colors good ->
  hex_to_rgb bad = Raise e ->
  2 <= length (good ++ bad :: rest) ->
  create_gimp_gradient name (good ++ bad :: rest) = Raise e.
Proof.
  intros Hgood Hbad Hlen. set (colors := good ++ bad :: rest) in *.
  assert (length colors = length good + S (length rest)) as Hlength
    by (unfold colors; now rewrite length_app).
  assert (colors !! length good = Some bad) as Hat
    by (unfold colors; now rewrite list_lookup_middle).
  set (k := length good - 1).
  assert (forall j color, j < length good -> colors !! j = Some color ->
                          is_ok (hex_to_rgb color) = true) as Hvalid.
  { intros j color Hj Hc. unfold colors in Hc. rewrite lookup_app_l in Hc by lia.
    unfold valid_colors in Hgood. rewrite Forall_forall in Hgood.
    eapply Hgood, list_elem_of_lookup_2, Hc. }
  assert (segment_at colors (Z.of_nat (length colors) - 1) (Z.of_nat k)
          = Raise e) as Hraise.
  { unfold segment_at. destruct good as [|g good'].
    - rewrite (getitem_lookup colors (Z.of_nat k) bad) by (lia || exact Hat).
      cbn [mbind result_bind]. now rewrite Hbad.
    - cbn [length] in *.
      replace (Z.of_nat k) with (Z.of_nat (length good')) by (subst k; lia).
      destruct (lookup_lt_is_Some_2 colors (length good')) as [ci Hci]; [lia|].
      rewrite (getitem_lookup colors (Z.of_nat (length good')) ci)
        by (lia || now rewrite Nat2Z.id).
      cbn [mbind result_bind]. pose proof (Hvalid (length good') ci ltac:(lia) Hci) as Hok.
      destruct (hex_to_rgb ci); [cbn [mbind result_bind]|discriminate Hok].
      rewrite (getitem_lookup colors (Z.of_nat (length good') + 1) bad).
      + cbn [mbind result_bind]. now rewrite Hbad.
      + lia.
      + replace (Z.to_nat (Z.of_nat (length good') + 1))
          with (S (length good')) by lia. exact Hat. }
  unfold create_gimp_gradient, gradient_segments, Py.range. fold colors.
  replace (Z.to_nat (Z.of_nat (length colors) - 1))
    with (k + S (length colors - 2 - k)) by lia.
  rewrite seq_app, map_app, build_segments_app. cbn [seq map Nat.add].
  destruct (build_segments_total colors (Z.of_nat (length colors) - 1)
              (map Z.of_nat (seq 0 k)) []) as [segments ->].
  - apply Forall_forall.
    intros i (j & -> & Hj%list_elem_of_In%in_seq)%list_elem_of_fmap.
    destruct (lookup_lt_is_Some_2 colors j) as [ci Hci]; [lia|].
    destruct (lookup_lt_is_Some_2 colors (S j)) as [cj Hcj]; [lia|].
    apply (segment_at_local colors (Z.of_nat j) ci cj);
      rewrite ?Nat2Z.id; try assumption; try lia.
    + apply (Hvalid j); [lia | exact Hci].
    + apply (Hvalid (S j)); [lia | exact Hcj].
  - cbn [mbind result_bind build_segments]. now rewrite Hraise.
Qed.

Lemma create_gimp_gradient_first_invalid_witness :
  create_gimp_gradient "G" (["#ff0000"] ++ "#xyz123" :: ["oops"])
  = Raise (InvalidLiteral "xy").
Proof.
  apply create_gimp_gradient_first_invalid.
  - repeat constructor.
  - vm_compute. reflexivity.
  - cbn. lia.
Defined.

(** ** More on [hex_to_rgb] *)

Lemma same_int_eq x y : same_int x y = true -> x = y.
Proof.
  destruct x, y; cbn; try discriminate; try reflexivity.
  now intros ->%Z.eqb_eq.
Qed.

Lemma capital_hash c : Ascii.eqb "#" (capital c) = Ascii.eqb "#" c.
Proof. each_char c; reflexivity. Qed.

Lemma capitals_lstrip s :
  Py.lstrip_char "#" (capitals s) = capitals (Py.lstrip_char "#" s).
Proof.
  unfold Py.lstrip_char. induction s as [|c s IH]; [reflexivity|].
  cbn [capitals Py.lstrip_class]. rewrite capital_hash.
  now destruct (Ascii.eqb "#" c).
Qed.

Lemma capitals_take n s : Py.take n (capitals s) = capitals (Py.take n s).
Proof.
  revert s. induction n as [|n IH]; intros [|c s]; cbn; try reflexivity.
  now rewrite IH.
Qed.

Lemma capitals_drop n s : Py.drop n (capitals s) = capitals (Py.drop n s).
Proof.
  revert s. induction n as [|n IH]; intros [|c s]; cbn; try reflexivity.
  apply IH.
Qed.

Lemma capitals_pairs_checked :
  forallb (fun a => forallb (fun b =>
      same_int
        (value_of (Py.int16 (capitals (String a (String b EmptyString)))))
        (value_of (Py.int16 (String a (String b EmptyString)))))
    all_chars) all_chars = true.
Proof. vm_compute. reflexivity. Qed.

Lemma capitals_singles_checked :
  forallb (fun a =>
      same_int (value_of (Py.int16 (capitals (String a EmptyString))))
               (value_of (Py.int16 (String a EmptyString))))
    all_chars = true.
Proof. vm_compute. reflexivity. Qed.

(** Capitals do not change the integer of a literal of at most two
    characters. *)
Lemma capitals_int16 s :
  String.length s <= 2 ->
  value_of (Py.int16 (capitals s)) = value_of (Py.int16 s).
Proof.
  destruct s as [|a [|b [|c s]]]; cbn [String.length]; intros Hlen.
  - reflexivity.
  - apply same_int_eq.
    exact (proj1 (forallb_forall _ _) capitals_singles_checked a
             (all_chars_complete a)).
  - apply same_int_eq.
    pose proof (proj1 (forallb_forall _ _) capitals_pairs_checked a
                  (all_chars_complete a)) as Ha.
    exact (proj1 (forallb_forall _ _) Ha b (all_chars_complete b)).
  - lia.
Qed.

Lemma capitals_channel hex_color i :
  value_of (channel (capitals hex_color) i) = value_of (channel hex_color i).
Proof.
  unfold channel, Py.slice. rewrite capitals_drop, capitals_take.
  pose proof (capitals_int16 (Py.take (i + 2 - i) (Py.drop i hex_color))) as H.
  replace (i + 2 - i) with 2 in * by lia.
  specialize (H (take_length_le 2 _)).
  destruct (Py.int16 (capitals _)), (Py.int16 (Py.take _ _)); cbn in *;
    congruence.
Qed.

(** X4: the case of the digits does not matter.  Writing the letters [a] to
    [f] of a token in capitals changes neither whether it converts nor the
    colour it converts to. *)
Theorem hex_to_rgb_case_insensitive token :
  value_of (hex_to_rgb (capitals token)) = value_of (hex_to_rgb token).
Proof.
  unfold hex_to_rgb. rewrite capitals_lstrip.
  set (rest := Py.lstrip_char "#" token).
  pose proof (capitals_channel rest 0) as H0.
  pose proof (capitals_channel rest 2) as H2.
  pose proof (capitals_channel rest 4) as H4.
  destruct (channel (capitals rest) 0), (channel rest 0); cbn in *;
    try congruence.
  destruct (channel (capitals rest) 2), (channel rest 2); cbn in *;
    try congruence.
  destruct (channel (capitals rest) 4), (channel rest 4); cbn in *;
    congruence.
Qed.

(** *** The scale of the bytes *)

Lemma scale_increasing_checked :
  forallb (fun a => forallb (fun b =>
      implb (a <? b) (Py.int_div_float (Z.of_nat a) 255
                      <? Py.int_div_float (Z.of_nat b) 255)%float)
    (seq 0 256)) (seq 0 256) = true.
Proof. vm_compute. reflexivity. Qed.

Lemma scale_irreflexive_checked :
  forallb (fun a =>
      negb (Py.int_div_float (Z.of_nat a) 255
            <? Py.int_div_float (Z.of_nat a) 255)%float)
    (seq 0 256) = true.
Proof. vm_compute. reflexivity. Qed.

(** A larger byte gives a larger channel. *)
Lemma scale_increasing a b :
  (0 <= a < b)%Z -> (b < 256)%Z ->
  (Py.int_div_float a 255 <? Py.int_div_float b 255)%float = true.
Proof.
  intros Ha Hb.
  pose proof (proj1 (forallb_forall _ _) scale_increasing_checked (Z.to_nat a)
                ltac:(apply in_seq; lia)) as H.
  cbv beta in H.
  pose proof (proj1 (forallb_forall _ _) H (Z.to_nat b)
                ltac:(apply in_seq; lia)) as H'.
  cbv beta in H'. rewrite !Z2Nat.id in H' by lia.
  rewrite (proj2 (Nat.ltb_lt _ _)) in H' by lia. exact H'.
Qed.

Lemma scale_injective a b :
  (0 <= a < 256)%Z -> (0 <= b < 256)%Z ->
  Py.int_div_float a 255 = Py.int_div_float b 255 -> a = b.
Proof.
  intros Ha Hb Heq.
  assert (forall c, (0 <= c < 256)%Z ->
            (Py.int_div_float c 255 <? Py.int_div_float c 255)%float = false)
    as Hirr.
  { intros c Hc.
    pose proof (proj1 (forallb_forall _ _) scale_irreflexive_checked
                  (Z.to_nat c) ltac:(apply in_seq; lia)) as H.
    cbv beta in H. rewrite Z2Nat.id in H by lia. now apply negb_true_iff. }
  destruct (Z.lt_trichotomy a b) as [Hlt | [-> | Hgt]]; [|reflexivity|].
  - pose proof (scale_increasing a b ltac:(lia) ltac:(lia)) as H.
    rewrite Heq, Hirr in H by lia. discriminate.
  - pose proof (scale_increasing b a ltac:(lia) ltac:(lia)) as H.
    rewrite Heq, Hirr in H by lia. discriminate.
Qed.

Lemma hex_to_rgb_hash_digits digits :
  six_hex_digits digits = true ->
  hex_to_rgb (String "#" digits) = Ok (rgb_of_digits digits).
Proof.
  intros Hd.
  apply (hex_to_rgb_stripped _ digits EmptyString); [|exact Hd].
  destruct (six_hex_digits_inv digits Hd) as (c1 & ? & ? & ? & ? & ? & d1 & H).
  destruct H as (? & ? & ? & ? & ? & -> & H1 & _).
  apply hex_digit_plain in H1 as (_ & _ & _ & Hh & _).
  unfold Py.lstrip_char. cbn [Py.lstrip_class].
  rewrite Ascii.eqb_refl. cbn [Py.lstrip_class].
  rewrite Ascii.eqb_sym, Hh. rewrite !append_cons. reflexivity.
Qed.

Lemma rgb_bytes_bounds digits :
  six_hex_digits digits = true ->
  let '(r, g, b) := rgb_bytes digits in
  (0 <= r < 256 /\ 0 <= g < 256 /\ 0 <= b < 256)%Z.
Proof.
  intros Hd.
  destruct (six_hex_digits_inv digits Hd)
    as (c1 & c2 & c3 & c4 & c5 & c6 & d1 & d2 & d3 & d4 & d5 & d6
        & -> & H1 & H2 & H3 & H4 & H5 & H6).
  unfold rgb_bytes, Py.slice. cbn [Py.drop Py.take Nat.sub].
  rewrite (base16_two_digits _ _ _ _ H1 H2), (base16_two_digits _ _ _ _ H3 H4),
    (base16_two_digits _ _ _ _ H5 H6).
  apply hex_val_bounds in H1, H2, H3, H4, H5, H6. lia.
Qed.

(** X5: the conversion loses nothing.  A larger byte gives a larger
    channel, so two tokens of [#] and six base-16 digits convert to the same
    colour only when they denote the same three bytes. *)
Theorem hex_to_rgb_injective digits1 digits2 :
  six_hex_digits digits1 = true ->
  six_hex_digits digits2 = true ->
  hex_to_rgb (String "#" digits1) = hex_to_rgb (String "#" digits2) ->
  rgb_bytes digits1 = rgb_bytes digits2.
Proof.
  intros H1 H2. rewrite !hex_to_rgb_hash_digits by assumption.
  pose proof (rgb_bytes_bounds digits1 H1) as B1.
  pose proof (rgb_bytes_bounds digits2 H2) as B2.
  unfold rgb_of_digits, rgb_bytes in *.
  intros [= Hr Hg Hb].
  apply scale_injective in Hr, Hg, Hb; try lia. congruence.
Qed.

Lemma hex_to_rgb_injective_witness :
  rgb_bytes "FBB040" = rgb_bytes "fbb040".
Proof.
  apply hex_to_rgb_injective; reflexivity.
Defined.

(** *** The range of the channels *)

Lemma slice_values_pairs_checked :
  forallb (fun a => forallb (fun b =>
      slice_value_ok (String a (String b EmptyString)))
    all_chars) all_chars = true.
Proof. vm_compute. reflexivity. Qed.

Lemma slice_values_singles_checked :
  forallb (fun a => slice_value_ok (String a EmptyString)) all_chars = true.
Proof. vm_compute. reflexivity. Qed.

Lemma slice_value_checked s : String.length s <= 2 -> slice_value_ok s = true.
Proof.
  destruct s as [|a [|b [|c s]]]; cbn [String.length]; intros Hlen.
  - reflexivity.
  - exact (proj1 (forallb_forall _ _) slice_values_singles_checked a
             (all_chars_complete a)).
  - pose proof (proj1 (forallb_forall _ _) slice_values_pairs_checked a
                  (all_chars_complete a)) as Ha.
    exact (proj1 (forallb_forall _ _) Ha b (all_chars_complete b)).
  - lia.
Qed.

Lemma channel_range_checked :
  forallb (fun n => in_channel_range (Py.int_div_float (Z.of_nat n - 15) 255))
    (seq 0 271) = true.
Proof. vm_compute. reflexivity. Qed.

Lemma channel_range_value v :
  (-15 <= v <= 255)%Z -> in_channel_range (Py.int_div_float v 255) = true.
Proof.
  intros Hv.
  pose proof (proj1 (forallb_forall _ _) channel_range_checked
                (Z.to_nat (v + 15)) ltac:(apply in_seq; lia)) as H.
  cbv beta in H. now replace (Z.of_nat (Z.to_nat (v + 15)) - 15)%Z with v in H
    by lia.
Qed.

(** A channel that is returned is in range, and in [[0.0, 1.0]] when its
    slice holds no minus sign. *)
Lemma channel_range hex_color i f :
  channel hex_color i = Ok f ->
  in_channel_range f = true /\
  (no_char "-" (Py.slice hex_color i (i + 2)) = true ->
   in_unit_interval f = true).
Proof.
  unfold channel.
  pose proof (slice_value_checked (Py.slice hex_color i (i + 2))) as H.
  unfold Py.slice in *. replace (i + 2 - i) with 2 in * by lia.
  specialize (H (take_length_le 2 _)). unfold slice_value_ok in H.
  destruct (Py.int16 _) as [v|]; [|discriminate].
  cbn [mbind result_bind mret result_ret]. intros [= <-].
  apply andb_prop in H as [[Hlo Hhi]%andb_prop Hpos].
  apply Z.leb_le in Hlo, Hhi. split.
  - apply channel_range_value. lia.
  - intros Hminus. rewrite Hminus in Hpos. cbn [implb] in Hpos.
    apply Z.leb_le in Hpos. apply unit_interval_byte. lia.
Qed.

Lemma slice_of_take s i :
  i + 2 <= 6 -> Py.slice (Py.take 6 s) i (i + 2) = Py.slice s i (i + 2).
Proof.
  intros Hi. unfold Py.slice. replace (i + 2 - i) with 2 by lia.
  do 5 (destruct i as [|i]; [
    destruct s as [|c1 [|c2 [|c3 [|c4 [|c5 [|c6 s]]]]]]; reflexivity|]).
  lia.
Qed.

(** X6: whatever token converts, each channel lies between [-15 / 255.0]
    and 1.0; it lies in [[0.0, 1.0]] when none of the six characters read
    is a minus sign.  (The slice [-f] is the literal of -15.) *)
Theorem hex_to_rgb_channel_range token r g b :
  hex_to_rgb token = Ok (r, g, b) ->
  (in_channel_range r = true /\ in_channel_range g = true /\
   in_channel_range b = true) /\
  (no_char "-" (Py.take 6 (Py.lstrip_char "#" token)) = true ->
   in_unit_interval r = true /\ in_unit_interval g = true /\
   in_unit_interval b = true).
Proof.
  unfold hex_to_rgb. set (rest := Py.lstrip_char "#" token).
  destruct (channel rest 0) as [r'|] eqn:H0; [cbn|discriminate].
  destruct (channel rest 2) as [g'|] eqn:H2; [cbn|discriminate].
  destruct (channel rest 4) as [b'|] eqn:H4; [cbn|discriminate].
  intros [= -> -> ->].
  apply channel_range in H0 as [R0 U0], H2 as [R2 U2], H4 as [R4 U4].
  split; [auto|]. intros Hminus.
  assert (forall i, i + 2 <= 6 ->
            no_char "-" (Py.slice rest i (i + 2)) = true) as Hs.
  { intros i Hi. rewrite <- slice_of_take by exact Hi.
    unfold Py.slice, no_char in *. now apply all_take, all_drop. }
  repeat split; [apply U0 | apply U2 | apply U4];
    first [apply (Hs 0) | apply (Hs 2) | apply (Hs 4)]; lia.
Qed.

Lemma hex_to_rgb_channel_range_witness :
  hex_to_rgb "-f0080"
  = Ok (Py.int_div_float (-15) 255, 0%float, Py.int_div_float 128 255) /\
  in_channel_range (Py.int_div_float (-15) 255) = true.
Proof.
  split; [vm_compute; reflexivity|].
  exact (proj1 (proj1 (hex_to_rgb_channel_range "-f0080" _ _ _
                         ltac:(vm_compute; reflexivity)))).
Defined.

(** ** [hex_to_rgb] on tokens of any characters *)

(** The classes of the ASCII characters, by code point. *)
Lemma ascii_classes_checked :
  forallb (fun n =>
      let ch := N.of_nat n in
      Bool.eqb (Py.is_int_space (ascii_of_N ch)) (Uni.is_int_space ch)
      && Bool.eqb (is_sign (ascii_of_N ch)) (Uni.is_sign ch))
    (seq 0 128) = true.
Proof. vm_compute. reflexivity. Qed.

(** The ten ASCII digits are digits, and nothing else. *)
Lemma digit_images_checked :
  forallb (fun n =>
      let a := ascii_of_N (48 + N.of_nat n) in
      Py.is_hex_digit a && negb (Py.is_int_space a) && negb (is_sign a))
    (seq 0 10) = true.
Proof. vm_compute. reflexivity. Qed.

Lemma digit_image d :
  (d < 10)%N ->
  Py.is_hex_digit (ascii_of_N (48 + d)) = true /\
  Py.is_int_space (ascii_of_N (48 + d)) = false /\
  is_sign (ascii_of_N (48 + d)) = false.
Proof.
  intros Hd.
  pose proof (proj1 (forallb_forall _ _) digit_images_checked (N.to_nat d)) as H.
  cbv beta zeta in H. rewrite N2Nat.id in H.
  specialize (H ltac:(apply in_seq; lia)).
  apply andb_prop in H as [[H1 H2%negb_true_iff]%andb_prop H3%negb_true_iff].
  auto.
Qed.

Section UnicodeLiterals.

Variable zeros : list N.

Lemma decimal_lt ch d : Uni.decimal zeros ch = Some d -> (d < 10)%N.
Proof.
  unfold Uni.decimal. destruct (ch <? 128)%N.
  - destruct ((48 <=? ch) && (ch <=? 57))%N eqn:H; [|discriminate].
    intros [= <-]. apply andb_prop in H as [?%N.leb_le ?%N.leb_le]. lia.
  - destruct (find _ zeros) as [zero|] eqn:Hfind; [|discriminate].
    cbn. intros [= <-]. apply find_some in Hfind as [_ H].
    apply andb_prop in H as [?%N.leb_le ?%N.ltb_lt]. lia.
Qed.

Lemma ascii_classes ch :
  (ch < 128)%N ->
  Py.is_hex_digit (ascii_of_N ch) = Uni.is_digit zeros ch /\
  Py.is_int_space (ascii_of_N ch) = Uni.is_int_space ch /\
  is_sign (ascii_of_N ch) = Uni.is_sign ch.
Proof.
  intros Hch. split.
  - unfold Uni.is_digit. now rewrite (proj2 (N.ltb_lt _ _) Hch).
  - pose proof (proj1 (forallb_forall _ _) ascii_classes_checked (N.to_nat ch))
      as H.
    cbv beta zeta in H. rewrite N2Nat.id in H.
    specialize (H ltac:(apply in_seq; lia)).
    apply andb_prop in H as [H1%eqb_prop H2%eqb_prop]. auto.
Qed.

(** Beyond ASCII there is no sign, the whitespace is the whitespace of
    [str.isspace], and a digit is a decimal digit. *)
Lemma beyond_ascii_classes ch :
  (128 <= ch)%N ->
  Uni.is_sign ch = false /\ Uni.is_int_space ch = Uni.is_space ch /\
  Uni.is_digit zeros ch
  = negb (Uni.is_space ch)
    && match Uni.decimal zeros ch with Some _ => true | None => false end.
Proof.
  intros Hch. unfold Uni.is_sign, Uni.is_int_space, Uni.is_digit.
  rewrite (proj2 (N.ltb_ge _ _) Hch).
  repeat split. apply orb_false_iff. split; apply N.eqb_neq; lia.
Qed.

(** What the rewriting does with the first character: it becomes an ASCII
    character of the same class, or the text ends with a question mark and
    the character is of no class. *)
Lemma to_ascii_cons ch s :
  (exists a,
     Uni.to_ascii zeros (ch :: s) = String a (Uni.to_ascii zeros s) /\
     Py.is_hex_digit a = Uni.is_digit zeros ch /\
     Py.is_int_space a = Uni.is_int_space ch /\
     is_sign a = Uni.is_sign ch)
  \/ (Uni.to_ascii zeros (ch :: s) = "?" /\
      Uni.is_digit zeros ch = false /\ Uni.is_int_space ch = false /\
      Uni.is_sign ch = false).
Proof.
  cbn [Uni.to_ascii]. destruct (ch <? 127)%N eqn:H127.
  { left. exists (ascii_of_N ch). split; [reflexivity|].
    apply ascii_classes. apply N.ltb_lt in H127. lia. }
  apply N.ltb_ge in H127.
  assert (ch = 127 \/ 128 <= ch)%N as [-> | Hch] by lia.
  { right. vm_compute. auto. }
  destruct (beyond_ascii_classes ch Hch) as (Hsign & Hspace & Hdigit).
  rewrite Hsign, Hspace, Hdigit.
  destruct (Uni.is_space ch) eqn:Hsp.
  { left. exists " "%char. repeat split. }
  destruct (Uni.decimal zeros ch) as [d|] eqn:Hd.
  - left. exists (ascii_of_N (48 + d)). split; [reflexivity|].
    now apply digit_image, decimal_lt with ch.
  - right. repeat split.
Qed.

Lemma to_ascii_accepted s :
  length s <= 2 ->
  accepted_slice (Uni.to_ascii zeros s) = Uni.accepted_slice zeros s.
Proof.
  destruct s as [|a [|b [|c s]]]; cbn [length]; intros Hlen;
    [reflexivity| | |lia].
  - destruct (to_ascii_cons a []) as [(a' & -> & Ha & _) | (-> & Ha & _)];
      cbn [Uni.to_ascii accepted_slice Uni.accepted_slice].
    + exact Ha.
    + now rewrite Ha.
  - destruct (to_ascii_cons b []) as [(b' & Hb & Hb1 & Hb2 & Hb3)
                                     | (Hb & Hb1 & Hb2 & Hb3)];
      (destruct (to_ascii_cons a [b]) as [(a' & -> & Ha1 & Ha2 & Ha3)
                                         | (-> & Ha1 & Ha2 & Ha3)]);
      rewrite ?Hb; cbn [Uni.to_ascii accepted_slice Uni.accepted_slice];
      rewrite <- ?Ha1, <- ?Ha2, <- ?Ha3, <- ?Hb1, <- ?Hb2, <- ?Hb3;
      try reflexivity;
      rewrite ?Ha1, ?Ha2, ?Ha3, ?Hb1, ?Hb2, ?Hb3;
      rewrite ?andb_false_r, ?andb_false_l, ?orb_false_r; reflexivity.
Qed.

Lemma to_string_accepted s :
  forallb (fun ch => (ch <? 128)%N) s = true ->
  length s <= 2 ->
  accepted_slice (Uni.to_string s) = Uni.accepted_slice zeros s.
Proof.
  destruct s as [|a [|b [|c s]]]; cbn [length forallb]; intros Hs Hlen;
    [reflexivity| | |lia].
  - apply andb_prop in Hs as [Ha%N.ltb_lt _].
    destruct (ascii_classes a Ha) as (H1 & _). exact H1.
  - apply andb_prop in Hs as [Ha%N.ltb_lt [Hb%N.ltb_lt _]%andb_prop].
    destruct (ascii_classes a Ha) as (Ha1 & Ha2 & Ha3).
    destruct (ascii_classes b Hb) as (Hb1 & Hb2 & Hb3).
    cbn [Uni.to_string map string_of_list_ascii accepted_slice
         Uni.accepted_slice].
    now rewrite Ha1, Ha2, Ha3, Hb1, Hb2.
Qed.

Lemma transform_accepted s :
  length s <= 2 ->
  accepted_slice (Uni.transform zeros s) = Uni.accepted_slice zeros s.
Proof.
  intros Hlen. unfold Uni.transform.
  destruct (forallb _ s) eqn:Hs.
  - now apply to_string_accepted.
  - now apply to_ascii_accepted.
Qed.

Lemma to_ascii_length s : String.length (Uni.to_ascii zeros s) <= length s.
Proof.
  induction s as [|ch s IH]; [reflexivity|]. cbn [Uni.to_ascii length].
  destruct (ch <? 127)%N; [cbn; lia|].
  destruct (Uni.is_space ch); [cbn; lia|].
  destruct (Uni.decimal zeros ch); cbn; lia.
Qed.

Lemma to_string_length s : String.length (Uni.to_string s) = length s.
Proof.
  unfold Uni.to_string. induction s as [|ch s IH]; [reflexivity|].
  cbn. now rewrite IH.
Qed.

Lemma transform_length s :
  String.length (Uni.transform zeros s) <= length s.
Proof.
  unfold Uni.transform. destruct (forallb _ s).
  - now rewrite to_string_length.
  - apply to_ascii_length.
Qed.

(** On a literal of at most two characters, [int(_, 16)] succeeds exactly
    on the accepted ones. *)
Lemma uni_int16_short s :
  length s <= 2 -> is_ok (Uni.int16 zeros s) = Uni.accepted_slice zeros s.
Proof.
  intros Hlen. rewrite <- transform_accepted by exact Hlen.
  rewrite <- int16_short by (pose proof (transform_length s); lia).
  unfold Uni.int16. now destruct (Py.int16 _).
Qed.

Lemma uni_slice_length s i : length (Uni.slice s i (i + 2)) <= 2.
Proof.
  unfold Uni.slice. rewrite length_take. lia.
Qed.

Lemma uni_channel_ok hex_color i :
  is_ok (Uni.channel zeros hex_color i)
  = Uni.accepted_slice zeros (Uni.slice hex_color i (i + 2)).
Proof.
  unfold Uni.channel. rewrite <- uni_int16_short by apply uni_slice_length.
  now destruct (Uni.int16 _ _).
Qed.

Lemma uni_channel_raises hex_color i e :
  Uni.channel zeros hex_color i = Raise e -> exists lit, e = InvalidLiteralOf lit.
Proof.
  unfold Uni.channel, Uni.int16. destruct (Py.int16 _); [discriminate|].
  intros [= <-]. eauto.
Qed.

Lemma uni_hex_to_rgb_ok tok :
  let rest := Uni.lstrip_char 35 tok in
  is_ok (Uni.hex_to_rgb zeros tok)
  = Uni.accepted_slice zeros (Uni.slice rest 0 2)
    && Uni.accepted_slice zeros (Uni.slice rest 2 4)
    && Uni.accepted_slice zeros (Uni.slice rest 4 6).
Proof.
  intros rest.
  pose proof (uni_channel_ok rest 0) as H0.
  pose proof (uni_channel_ok rest 2) as H2.
  pose proof (uni_channel_ok rest 4) as H4. cbn [Nat.add] in H0, H2, H4.
  rewrite <- H0, <- H2, <- H4. clear H0 H2 H4.
  unfold Uni.hex_to_rgb. fold rest.
  destruct (Uni.channel zeros rest 0); [|reflexivity].
  destruct (Uni.channel zeros rest 2); [|reflexivity].
  destruct (Uni.channel zeros rest 4); reflexivity.
Qed.

Lemma uni_hex_to_rgb_raises tok e :
  Uni.hex_to_rgb zeros tok = Raise e -> exists lit, e = InvalidLiteralOf lit.
Proof.
  unfold Uni.hex_to_rgb.
  destruct (Uni.channel _ _ 0) eqn:H0;
    [|intros [= <-]; eauto using uni_channel_raises].
  destruct (Uni.channel _ _ 2) eqn:H2;
    [|intros [= <-]; eauto using uni_channel_raises].
  destruct (Uni.channel _ _ 4) eqn:H4;
    [|intros [= <-]; eauto using uni_channel_raises].
  discriminate.
Qed.

Lemma uni_accepted_slice_literal s :
  Uni.accepted_slice zeros s = true ->
  Forall (fun ch => Uni.literal_char zeros ch = true) s.
Proof.
  destruct s as [|a [|b [|c s]]]; cbn [Uni.accepted_slice];
    try discriminate; unfold Uni.literal_char.
  - intros Ha. repeat constructor. now rewrite Ha.
  - intros H. repeat constructor; cbv beta;
      destruct (Uni.is_digit zeros a), (Uni.is_digit zeros b),
        (Uni.is_int_space a), (Uni.is_int_space b), (Uni.is_sign a);
      cbn in *; solve [reflexivity | discriminate H].
Qed.

Lemma uni_accepted_slices_literal rest i c :
  Uni.accepted_slice zeros (Uni.slice rest 0 2) = true ->
  Uni.accepted_slice zeros (Uni.slice rest 2 4) = true ->
  Uni.accepted_slice zeros (Uni.slice rest 4 6) = true ->
  i < 6 -> rest !! i = Some c -> Uni.literal_char zeros c = true.
Proof.
  intros H0 H2 H4 Hi Hget.
  apply uni_accepted_slice_literal in H0, H2, H4.
  assert (forall q k, k < 2 ->
            Uni.slice rest (q * 2) (q * 2 + 2) !! k = rest !! (q * 2 + k))
    as Hslice.
  { intros q k Hk. unfold Uni.slice.
    replace (q * 2 + 2 - q * 2) with 2 by lia.
    rewrite lookup_take_lt by lia. now rewrite lookup_drop. }
  assert (i = 0 * 2 + 0 \/ i = 0 * 2 + 1 \/ i = 1 * 2 + 0 \/ i = 1 * 2 + 1
          \/ i = 2 * 2 + 0 \/ i = 2 * 2 + 1) as Hcase by lia.
  destruct Hcase as [-> | [-> | [-> | [-> | [-> | ->]]]]];
    rewrite <- Hslice in Hget by lia; cbn [Nat.mul Nat.add] in Hget;
    first [exact (Forall_lookup_1 _ _ _ _ H0 Hget)
          | exact (Forall_lookup_1 _ _ _ _ H2 Hget)
          | exact (Forall_lookup_1 _ _ _ _ H4 Hget)].
Qed.

(** *** Tokens of Latin-1 characters *)

Lemma decimal_latin1 ch :
  Forall (N.le 256) zeros -> (128 <= ch < 256)%N -> Uni.decimal zeros ch = None.
Proof.
  intros Hzeros Hch. unfold Uni.decimal.
  rewrite (proj2 (N.ltb_ge _ _)) by lia.
  destruct (find _ zeros) as [zero|] eqn:Hfind; [|reflexivity].
  apply find_some in Hfind as [Hin H].
  apply andb_prop in H as [?%N.leb_le ?%N.ltb_lt].
  apply list_elem_of_In in Hin.
  pose proof (proj1 (Forall_forall _ _) Hzeros zero Hin). lia.
Qed.

End UnicodeLiterals.

Lemma to_ascii_latin1 zeros s :
  Forall (N.le 256) zeros ->
  Uni.to_ascii zeros (Uni.of_string s) = Uni.to_ascii [] (Uni.of_string s).
Proof.
  intros Hzeros. unfold Uni.of_string.
  induction s as [|c s IH]; [reflexivity|].
  cbn [list_ascii_of_string map Uni.to_ascii]. rewrite IH.
  destruct (Py.code c <? 127)%N eqn:Hc; [reflexivity|].
  destruct (Uni.is_space _) eqn:Hspace; [reflexivity|].
  apply N.ltb_ge in Hc.
  assert (Uni.decimal zeros (Py.code c) = None
          /\ Uni.decimal [] (Py.code c) = None) as [-> ->]; [|reflexivity].
  assert (Py.code c = 127 \/ 128 <= Py.code c < 256)%N as [-> | Hcode].
  { unfold Py.code in *. pose proof (N_ascii_bounded c). lia. }
  - split; reflexivity.
  - split; now apply decimal_latin1.
Qed.

Lemma transform_latin1 zeros s :
  Forall (N.le 256) zeros ->
  Uni.transform zeros (Uni.of_string s) = Uni.transform [] (Uni.of_string s).
Proof.
  intros Hzeros. unfold Uni.transform. now rewrite to_ascii_latin1.
Qed.

(** With no digit beyond ASCII in Latin-1, a literal of at most two Latin-1
    characters is read the same whichever way it is given. *)
Lemma latin1_pairs_checked :
  forallb (fun a => forallb (fun b =>
      let lit := String a (String b EmptyString) in
      same_int (value_of (Uni.int16 [] (Uni.of_string lit)))
               (value_of (Py.int16 lit)))
    all_chars) all_chars = true.
Proof. vm_compute. reflexivity. Qed.

Lemma latin1_singles_checked :
  forallb (fun a =>
      let lit := String a EmptyString in
      same_int (value_of (Uni.int16 [] (Uni.of_string lit)))
               (value_of (Py.int16 lit)))
    all_chars = true.
Proof. vm_compute. reflexivity. Qed.

Lemma int16_latin1 zeros lit :
  Forall (N.le 256) zeros ->
  String.length lit <= 2 ->
  value_of (Uni.int16 zeros (Uni.of_string lit)) = value_of (Py.int16 lit).
Proof.
  intros Hzeros Hlen.
  assert (value_of (Uni.int16 zeros (Uni.of_string lit))
          = value_of (Uni.int16 [] (Uni.of_string lit))) as ->.
  { unfold Uni.int16. now rewrite transform_latin1. }
  apply same_int_eq.
  destruct lit as [|a [|b [|c lit]]]; cbn [String.length] in Hlen.
  - reflexivity.
  - exact (proj1 (forallb_forall _ _) latin1_singles_checked a
             (all_chars_complete a)).
  - pose proof (proj1 (forallb_forall _ _) latin1_pairs_checked a
                  (all_chars_complete a)) as Ha.
    exact (proj1 (forallb_forall _ _) Ha b (all_chars_complete b)).
  - lia.
Qed.

Lemma of_string_lstrip s :
  Uni.lstrip_char 35 (Uni.of_string s) = Uni.of_string (Py.lstrip_char "#" s).
Proof.
  unfold Uni.of_string, Py.lstrip_char.
  induction s as [|c s IH]; [reflexivity|].
  cbn [list_ascii_of_string map Uni.lstrip_char Py.lstrip_class].
  assert ((Py.code c =? 35)%N = Ascii.eqb "#" c) as ->.
  { each_char c; reflexivity. }
  destruct (Ascii.eqb "#" c); [exact IH | reflexivity].
Qed.

Lemma of_string_drop n s :
  drop n (Uni.of_string s) = Uni.of_string (Py.drop n s).
Proof.
  unfold Uni.of_string. revert s.
  induction n as [|n IH]; intros [|c s]; cbn; try reflexivity. apply IH.
Qed.

Lemma of_string_take n s :
  take n (Uni.of_string s) = Uni.of_string (Py.take n s).
Proof.
  unfold Uni.of_string. revert s.
  induction n as [|n IH]; intros [|c s]; cbn; try reflexivity.
  f_equal. apply IH.
Qed.

Lemma of_string_slice s i j :
  Uni.slice (Uni.of_string s) i j = Uni.of_string (Py.slice s i j).
Proof.
  unfold Uni.slice, Py.slice. now rewrite of_string_drop, of_string_take.
Qed.

Lemma channel_latin1 zeros hex_color i :
  Forall (N.le 256) zeros ->
  value_of (Uni.channel zeros (Uni.of_string hex_color) i)
  = value_of (channel hex_color i).
Proof.
  intros Hzeros. unfold Uni.channel, channel. rewrite of_string_slice.
  assert (String.length (Py.slice hex_color i (i + 2)) <= 2) as Hlen.
  { unfold Py.slice. replace (i + 2 - i) with 2 by lia. apply take_length_le. }
  pose proof (int16_latin1 zeros _ Hzeros Hlen) as H.
  destruct (Uni.int16 _ _), (Py.int16 _); cbn in *; congruence.
Qed.

(** On a token of Latin-1 characters, [hex_to_rgb] is the same function
    whichever way the token is given. *)
Lemma hex_to_rgb_latin1 zeros token :
  Forall (N.le 256) zeros ->
  value_of (Uni.hex_to_rgb zeros (Uni.of_string token))
  = value_of (hex_to_rgb token).
Proof.
  intros Hzeros. unfold Uni.hex_to_rgb, hex_to_rgb. rewrite of_string_lstrip.
  set (rest := Py.lstrip_char "#" token).
  pose proof (channel_latin1 zeros rest 0 Hzeros) as H0.
  pose proof (channel_latin1 zeros rest 2 Hzeros) as H2.
  pose proof (channel_latin1 zeros rest 4 Hzeros) as H4.
  destruct (Uni.channel zeros _ 0), (channel rest 0); cbn in *;
    try congruence; try reflexivity.
  injection H0 as ->.
  destruct (Uni.channel zeros _ 2), (channel rest 2); cbn in *;
    try congruence; try reflexivity.
  injection H2 as ->.
  destruct (Uni.channel zeros _ 4), (channel rest 4); cbn in *;
    try congruence; try reflexivity.
Qed.

(** The digits zero of [Uni.decimal_zeros] all lie beyond Latin-1. *)
Lemma decimal_zeros_beyond_latin1 : Forall (N.le 256) Uni.decimal_zeros.
Proof.
  apply Forall_forall. intros zero Hin%list_elem_of_In.
  apply N.leb_le.
  exact (proj1 (forallb_forall _ _)
           (eq_refl : forallb (N.leb 256) Uni.decimal_zeros = true) zero Hin).
Qed.

(** Six full-width digits convert, as six ASCII digits do. *)
Lemma full_width_digits_convert :
  Uni.hex_to_rgb Uni.decimal_zeros [65296; 65296; 65297; 65297; 65298; 65298]%N
  = hex_to_rgb "001122".
Proof. vm_compute. reflexivity. Qed.

(** C6, amended: [hex_to_rgb] succeeds exactly when the slices [[0:2]],
    [[2:4]] and [[4:6]] of what follows the leading [#]s are literals that
    [int(_, 16)] accepts, and raises the [ValueError] of [int] otherwise,
    for a token of any characters, a digit being a base-16 digit of ASCII
    or a decimal digit of any script; it raises when fewer than five
    characters follow, and when one of the first six is neither a digit, a
    sign nor whitespace; ["#xyz123"] raises.  On a token of Latin-1
    characters this is [hex_to_rgb] on strings. *)
Theorem hex_to_rgb_raises_unless_accepted zeros :
  (forall tok,
     let rest := Uni.lstrip_char 35 tok in
     match Uni.hex_to_rgb zeros tok with
     | Ok _ =>
         Uni.accepted_slice zeros (Uni.slice rest 0 2) = true /\
         Uni.accepted_slice zeros (Uni.slice rest 2 4) = true /\
         Uni.accepted_slice zeros (Uni.slice rest 4 6) = true
     | Raise e =>
         (exists lit, e = InvalidLiteralOf lit) /\
         Uni.accepted_slice zeros (Uni.slice rest 0 2)
           && Uni.accepted_slice zeros (Uni.slice rest 2 4)
           && Uni.accepted_slice zeros (Uni.slice rest 4 6) = false
     end) /\
  (forall tok,
     length (Uni.lstrip_char 35 tok) < 5 ->
     is_ok (Uni.hex_to_rgb zeros tok) = false) /\
  (forall tok i c,
     i < 6 -> Uni.lstrip_char 35 tok !! i = Some c ->
     Uni.literal_char zeros c = false ->
     is_ok (Uni.hex_to_rgb zeros tok) = false) /\
  Uni.hex_to_rgb zeros (Uni.of_string "#xyz123")
  = Raise (InvalidLiteralOf (Uni.of_string "xy")) /\
  hex_to_rgb "#xyz123" = Raise (InvalidLiteral "xy") /\
  (Forall (N.le 256) zeros ->
   forall token,
     value_of (Uni.hex_to_rgb zeros (Uni.of_string token))
     = value_of (hex_to_rgb token)).
Proof.
  split; [|split; [|split; [|split; [|split]]]].
  - intros tok rest. pose proof (uni_hex_to_rgb_ok zeros tok) as Hok.
    cbv zeta in Hok. fold rest in Hok.
    destruct (Uni.hex_to_rgb zeros tok) eqn:Hr; cbn [is_ok] in Hok.
    + symmetry in Hok. apply andb_prop in Hok as [[? ?]%andb_prop ?]. auto.
    + split; [eauto using uni_hex_to_rgb_raises | now symmetry].
  - intros tok Hlen. rewrite uni_hex_to_rgb_ok.
    set (rest := Uni.lstrip_char 35 tok) in *.
    assert (Uni.slice rest 4 6 = []) as ->.
    { unfold Uni.slice.
      destruct rest as [|c1 [|c2 [|c3 [|c4 [|c5 r]]]]]; cbn in *;
        reflexivity || lia. }
    cbn [Uni.accepted_slice]. apply andb_false_r.
  - intros tok i c Hi Hget Hc. rewrite uni_hex_to_rgb_ok.
    set (rest := Uni.lstrip_char 35 tok) in *.
    destruct (Uni.accepted_slice zeros (Uni.slice rest 0 2)) eqn:H0;
      [|reflexivity].
    destruct (Uni.accepted_slice zeros (Uni.slice rest 2 4)) eqn:H2;
      [|reflexivity].
    destruct (Uni.accepted_slice zeros (Uni.slice rest 4 6)) eqn:H4;
      [|reflexivity].
    pose proof (uni_accepted_slices_literal zeros rest i c H0 H2 H4 Hi Hget).
    congruence.
  - vm_compute. reflexivity.
  - vm_compute. reflexivity.
  - intros Hzeros token. now apply hex_to_rgb_latin1.
Qed.

Lemma hex_to_rgb_raises_unless_accepted_witness :
  is_ok (Uni.hex_to_rgb Uni.decimal_zeros (Uni.of_string "#fff")) = false /\
  is_ok (Uni.hex_to_rgb Uni.decimal_zeros (Uni.of_string "#12345g")) = false /\
  is_ok (Uni.hex_to_rgb Uni.decimal_zeros
           [35; 65296; 65296; 65297; 65297; 65345; 65345]%N) = false /\
  value_of (Uni.hex_to_rgb Uni.decimal_zeros (Uni.of_string "#ff0000zz"))
  = value_of (hex_to_rgb "#ff0000zz").
Proof.
  destruct (hex_to_rgb_raises_unless_accepted Uni.decimal_zeros)
    as (_ & Hshort & Hchar & _ & _ & Hlatin).
  split; [|split; [|split]].
  - apply Hshort. vm_compute. lia.
  - apply (Hchar _ 5 103%N); [lia | reflexivity | reflexivity].
  - apply (Hchar _ 4 65345%N); [lia | reflexivity | reflexivity].
  - apply Hlatin, decimal_zeros_beyond_latin1.
Defined.

(** ** More on [parse_css_gradient] *)

Lemma append_length s t :
  String.length (s +:+ t) = String.length s + String.length t.
Proof.
  induction s as [|c s IH]; [reflexivity|]. rewrite append_cons. cbn.
  now rewrite IH.
Qed.

(** A closing parenthesis of a text followed by a tail without one lies in
    the text. *)
Lemma split_before_tail x r t tail :
  no_char ")" tail = true ->
  x +:+ ")" +:+ r = t +:+ tail ->
  exists r0, t = x +:+ ")" +:+ r0 /\ r = r0 +:+ tail.
Proof.
  intros Htail. revert t. induction x as [|c x IH]; intros t H.
  - rewrite append_nil_l in H. destruct t as [|c' t].
    + rewrite append_nil_l in H. subst tail. discriminate Htail.
    + rewrite !append_cons in H. rewrite append_nil_l in H.
      injection H as <- ->. now exists t.
  - rewrite append_cons in H. destruct t as [|c' t].
    + rewrite append_nil_l in H. subst tail. unfold no_char in Htail.
      cbn [Py.all] in Htail. apply andb_prop in Htail as [_ Htail].
      rewrite !all_append in Htail.
      apply andb_prop in Htail as [_ [Hp _]%andb_prop]. discriminate Hp.
    + rewrite append_cons in H. injection H as <- H.
      destruct (IH t H) as (r0 & -> & ->). now exists r0.
Qed.

Lemma greedy_groups_tail s tail direction colors_str :
  no_char ")" tail = true ->
  greedy_groups s direction colors_str ->
  greedy_groups (s +:+ tail) direction colors_str.
Proof.
  intros Htail (ws & rest & -> & Hd & Hdc & Hws & Hcs & Hcsc & Hwmax & Hcmax).
  exists ws, (rest +:+ tail). rewrite !append_assoc.
  repeat split; try assumption.
  - intros ws' cs' rest' Hsplit Hws' Hcs' Hcsc'.
    destruct (split_before_tail (ws' +:+ cs') rest'
                (ws +:+ colors_str +:+ ")" +:+ rest) tail Htail)
      as (r0 & Ht & ->); [now rewrite !append_assoc|].
    rewrite append_assoc in Ht. eapply Hwmax; eassumption.
  - intros cs' rest' Hsplit Hcsc'.
    destruct (split_before_tail cs' rest' (colors_str +:+ ")" +:+ rest) tail
                Htail) as (r0 & Ht & ->); [now rewrite !append_assoc|].
    eapply Hcmax; eassumption.
Qed.

Lemma gradient_shape_tail s tail :
  no_char ")" tail = true -> gradient_shape (s +:+ tail) -> gradient_shape s.
Proof.
  intros Htail (d & ws & cs & rest & H & Hd & Hdc & Hws & Hcs & Hcsc).
  destruct (split_before_tail
              ("linear-gradient(" +:+ d +:+ "," +:+ ws +:+ cs) rest s tail Htail)
    as (r0 & -> & ->); [now rewrite !append_assoc|].
  exists d, ws, cs, r0. rewrite !append_assoc. repeat split; assumption.
Qed.

Lemma linear_gradient_tail s tail :
  no_char ")" tail = true ->
  Re.linear_gradient (s +:+ tail) = Re.linear_gradient s.
Proof.
  intros Htail.
  destruct (Re.linear_gradient s) as [[d cs]|] eqn:Hs.
  - now apply linear_gradient_greedy, greedy_groups_tail, linear_gradient_greedy.
  - destruct (Re.linear_gradient (s +:+ tail)) as [p|] eqn:Ht; [|reflexivity].
    assert (is_Some (Re.linear_gradient s)) as [? Hsome]; [|congruence].
    eapply linear_gradient_shape, gradient_shape_tail, linear_gradient_shape;
      eauto.
Qed.

(** X7: what follows the gradient is ignored.  A text after the input that
    holds no closing parenthesis, such as the semicolon of a CSS declaration,
    changes neither the colours returned nor the error raised. *)
Theorem parse_ignores_tail s tail :
  no_char ")" tail = true ->
  parse_css_gradient (s +:+ tail) = parse_css_gradient s.
Proof.
  intros Htail. unfold parse_css_gradient. now rewrite linear_gradient_tail.
Qed.

Lemma parse_ignores_tail_witness :
  parse_css_gradient ("linear-gradient(to right, #fbb040, #fdb453)" +:+ "; }")
  = parse_css_gradient "linear-gradient(to right, #fbb040, #fdb453)".
Proof. apply parse_ignores_tail. reflexivity. Defined.

(** *** Reading back the usual notation *)

Lemma space_not_comma c : Py.is_space c = true -> negb (Ascii.eqb c ",") = true.
Proof. each_char c; vm_compute; intros H; solve [discriminate H | reflexivity]. Qed.

Lemma strip_leading_space ws s :
  Py.all Py.is_space ws = true -> Py.strip (ws +:+ s) = Py.strip s.
Proof.
  unfold Py.strip. induction ws as [|c ws IH]; [reflexivity|].
  cbn [Py.all]. intros [Hc Hws]%andb_prop. rewrite append_cons.
  cbn [Py.lstrip_class]. rewrite Hc. auto.
Qed.

Lemma plain_token_inv token :
  plain_token token = true ->
  Py.strip token = token /\ no_char "," token = true /\
  no_char "010" token = true.
Proof.
  unfold plain_token. intros [[Hs%String.eqb_eq Hc]%andb_prop Hl]%andb_prop.
  auto.
Qed.

(** The pieces of a joined list of plain tokens, stripped, are the tokens. *)
Lemma strip_split_join ws colors :
  Py.all Py.is_space ws = true ->
  colors <> [] ->
  Forall (fun token => plain_token token = true) colors ->
  map Py.strip (Py.split "," (ws +:+ Py.join ", " colors)) = colors.
Proof.
  intros Hws Hne Hall. revert ws Hws.
  induction Hall as [|token rest Htok Hrest IH]; intros ws Hws; [congruence|].
  apply plain_token_inv in Htok as (Hstrip & Hcomma & _).
  assert (no_char "," (ws +:+ token) = true) as Hpiece.
  { unfold no_char in *. rewrite all_append, Hcomma, andb_true_r.
    eapply all_impl; [apply space_not_comma | exact Hws]. }
  destruct rest as [|next rest].
  - cbn [Py.join]. rewrite split_no_sep by exact Hpiece. cbn [map].
    now rewrite strip_leading_space, Hstrip.
  - rewrite join_cons by discriminate.
    change (", " +:+ ?t) with (String "," (" " +:+ t)).
    rewrite <- append_assoc, split_append_sep by exact Hpiece. cbn [map].
    rewrite strip_leading_space, Hstrip by exact Hws.
    now rewrite IH.
Qed.

Lemma lstrip_length p s :
  String.length (Py.lstrip_class p s) <= String.length s.
Proof.
  induction s as [|c s IH]; cbn; [lia|]. destruct (p c); cbn; lia.
Qed.

(** A token that [strip] leaves alone does not start with whitespace. *)
Lemma stripped_head c token :
  Py.strip (String c token) = String c token -> Py.is_space c = false.
Proof.
  intros Hs. destruct (Py.is_space c) eqn:Hc; [|reflexivity].
  destruct (strip_trimmed (String c token)) as (_ & _ & _ & _ & _ & Hl & _).
  rewrite Hs in Hl. cbn [Py.lstrip_class] in Hl. rewrite Hc in Hl.
  pose proof (lstrip_length Py.is_space token) as Hlen.
  rewrite Hl in Hlen. cbn in Hlen. lia.
Qed.

(** The joined text of plain tokens does not start with whitespace. *)
Lemma join_head c text colors :
  Forall (fun token => plain_token token = true) colors ->
  Py.join ", " colors = String c text -> Py.is_space c = false.
Proof.
  intros Hall. destruct Hall as [|token rest Htok Hrest]; [discriminate|].
  apply plain_token_inv in Htok as (Hstrip & _).
  destruct token as [|c' token].
  - destruct rest; [discriminate|]. rewrite join_cons by discriminate.
    now intros [= <- _].
  - destruct rest.
    + intros [= <- _]. eapply stripped_head, Hstrip.
    + rewrite join_cons by discriminate. rewrite append_cons.
      intros [= <- _]. eapply stripped_head, Hstrip.
Qed.

Lemma css_text_groups colors :
  Forall (fun token => plain_token token = true) colors ->
  Py.join ", " colors <> EmptyString ->
  greedy_groups (css_text colors) "to right" (Py.join ", " colors).
Proof.
  intros Hall Hne. exists " ", EmptyString.
  split; [reflexivity|]. split; [discriminate|]. split; [reflexivity|].
  split; [reflexivity|]. split; [exact Hne|].
  split; [|split].
  - apply join_no_char; [reflexivity|].
    eapply Forall_impl; [exact Hall|]. now intros token (_ & _ & H)%plain_token_inv.
  - intros ws' cs' rest' Hsplit Hws' _ _.
    destruct ws' as [|c1 [|c2 ws']]; cbn; try lia.
    rewrite !append_cons in Hsplit. rewrite append_nil_l in Hsplit.
    injection Hsplit as _ Hsplit.
    destruct (Py.join ", " colors) as [|c text] eqn:Hj; [congruence|].
    rewrite append_cons in Hsplit. injection Hsplit as <- _.
    cbn [Py.all] in Hws'.
    apply andb_prop in Hws' as [_ [Hc _]%andb_prop].
    now rewrite (join_head c text colors Hall Hj) in Hc.
  - intros cs' rest' Hsplit _.
    apply (f_equal String.length) in Hsplit.
    rewrite !append_length in Hsplit. cbn in Hsplit. lia.
Qed.

(** X8: the usual notation reads back.  For a non-empty list of tokens
    without whitespace around them and without comma or line feed (colour
    tokens such as [#fbb040] are of this kind), parsing
    [linear-gradient(to right, t1, t2, ...)] returns the list. *)
Theorem parse_css_text colors :
  colors <> [] ->
  Forall (fun token => plain_token token = true) colors ->
  parse_css_gradient (css_text colors) = Ok colors.
Proof.
  intros Hne Hall.
  destruct (Py.join ", " colors) as [|c text] eqn:Hj.
  - destruct colors as [|token [|next rest]]; [congruence| |].
    + cbn [Py.join] in Hj. subst token. vm_compute. reflexivity.
    + rewrite join_cons in Hj by discriminate.
      apply append_empty in Hj as [_ Hj]. discriminate Hj.
  - assert (Py.join ", " colors <> EmptyString) as Hjne by now rewrite Hj.
    pose proof (proj2 (linear_gradient_greedy _ _ _)
                  (css_text_groups colors Hall Hjne)) as Hm.
    rewrite (parse_css_gradient_eq _ _ _ Hm).
    change (Py.contains "to right" "to right") with true. cbv iota.
    f_equal. apply (strip_split_join EmptyString); auto.
Qed.

Lemma parse_css_text_witness :
  parse_css_gradient "linear-gradient(to right, #fbb040, #fdb453, #ffb865)"
  = Ok ["#fbb040"; "#fdb453"; "#ffb865"].
Proof.
  apply (parse_css_text ["#fbb040"; "#fdb453"; "#ffb865"]).
  - discriminate.
  - repeat constructor.
Defined.

(** ** More on [main] *)


(** *** From the usual notation to the file *)





